(** * research-rag-pipeline: ingestion, vector store and search facade

    A shallow embedding of [pipeline/data_loader.py] and
    [pipeline/search.py], together with the contract of the vector store
    they drive, and the properties the specification states about them.

    Conventions of the embedding:
    - Python [str] is [string]; [str.lower] acts on the ASCII letters.
    - A call that may raise returns a [Result]; an exception that the
      source catches is turned into a value at the [except] clause.
    - [logging] calls append a [LogRecord] to an explicit log.
    - A [dict] is a [gmap]; [set(d.keys())] is [dom d]. *)

From Stdlib Require Import ZArith Ascii.
From stdpp Require Import gmap strings list sorting.

Open Scope Z_scope.

(** ** Python values shared by the modules *)

Module Py.

(** An exception instance, kept as its [str(e)]. *)
Inductive exn : Type := Exception (msg : string).

#[global] Instance exn_eq_dec : EqDecision exn.
Proof. solve_decision. Defined.

Inductive Result (A : Type) : Type :=
| Ok (a : A)
| Raise (e : exn).
Arguments Ok {A} a.
Arguments Raise {A} e.

(** [str.lower] on one character: [A-Z] moves to [a-z]. *)
Definition lower_ascii (c : ascii) : ascii :=
  let n := nat_of_ascii c in
  if ((65 <=? n) && (n <=? 90))%nat then ascii_of_nat (n + 32) else c.

Fixpoint lower (s : string) : string :=
  match s with
  | EmptyString => EmptyString
  | String c r => String (lower_ascii c) (lower r)
  end.

(** [s.rfind(c)]: index of the last occurrence, [None] for Python's -1. *)
Fixpoint rfind (c : ascii) (s : string) : option nat :=
  match s with
  | EmptyString => None
  | String a r =>
      match rfind c r with
      | Some i => Some (S i)
      | None => if Ascii.eqb a c then Some 0%nat else None
      end
  end.

(** [sep.join(l)]. *)
Fixpoint join (sep : string) (l : list string) : string :=
  match l with
  | [] => ""
  | [x] => x
  | x :: rest => x +:+ sep +:+ join sep rest
  end.

(** [os.path.join(a, b)] for a relative [b] (posixpath). *)
Definition ends_with_slash (a : string) : bool :=
  match rfind "/" a with
  | Some i => (S i =? String.length a)%nat
  | None => false
  end.

Definition path_join (a b : string) : string :=
  if (String.length a =? 0)%nat || ends_with_slash a
  then a +:+ b else a +:+ "/" +:+ b.

End Py.

Export Py.

(** ** pathlib: the pieces of [Path] the loader reads *)

Module Pathlib.

(** [Path.name]: the final component of the path. *)
Definition name (p : string) : string :=
  match rfind "/" p with
  | Some i => String.substring (S i) (String.length p - S i) p
  | None => p
  end.

(** [Path.suffix]:
    [i = name.rfind('.'); name[i:] if 0 < i < len(name) - 1 else ''] *)
Definition suffix (p : string) : string :=
  let nm := name p in
  match rfind "." nm with
  | Some i =>
      if ((0 <? i) && (i <? String.length nm - 1))%nat
      then String.substring i (String.length nm - i) nm
      else ""
  | None => ""
  end.

(** One item produced by [Path.rglob('*')]. *)
Record DirEntry : Type := {
  entry_path : string;
  entry_is_file : bool;
}.

End Pathlib.

(** ** pipeline/data_loader.py *)

Module DataLoader.
Import Pathlib.

(** langchain's [Document]. *)
Record Document : Type := {
  page_content : string;
  doc_metadata : gmap string string;
}.

Inductive LoaderClass : Type :=
| PyPDFLoader
| TextLoader
| CSVLoader
| UnstructuredExcelLoader
| Docx2txtLoader
| JSONLoader.

#[global] Instance LoaderClass_eq_dec : EqDecision LoaderClass.
Proof. solve_decision. Defined.

Definition LOADER_MAP : gmap string LoaderClass :=
  list_to_map
    [ (".pdf", PyPDFLoader);
      (".txt", TextLoader);
      (".csv", CSVLoader);
      (".xlsx", UnstructuredExcelLoader);
      (".docx", Docx2txtLoader);
      (".json", JSONLoader) ].

(** [set(self.LOADER_MAP.keys())] *)
Definition supported_extensions : gset string := dom LOADER_MAP.

Inductive LogLevel : Type := DEBUG | INFO | WARNING | ERROR.

(** The logging calls of the module, one constructor per call site, with
    the values its f-string prints. *)
Inductive LogRecord : Type :=
| LogInitialized (data_path : string)         (* line 42 *)
| LogFound (n : nat)                          (* line 53 *)
| LogNoLoader (extension file_path : string)  (* line 62 *)
| LogLoaded (n : nat) (file_name : string)    (* line 68 *)
| LogFailed (file_path : string) (e : exn)    (* line 71 *)
| LogProcessing (file_path : string) (e : exn)(* line 98 *)
| LogTotal (n : nat).                         (* line 100 *)

Definition levelname (r : LogRecord) : LogLevel :=
  match r with
  | LogInitialized _ | LogFound _ | LogTotal _ => INFO
  | LogNoLoader _ _ => WARNING
  | LogLoaded _ _ => DEBUG
  | LogFailed _ _ | LogProcessing _ _ => ERROR
  end.

(** [OptimizedDocumentLoader]: the two attributes set by [__init__]. *)
Record OptimizedDocumentLoader : Type := {
  data_path : string;
  max_workers : Z;
}.

(** [OptimizedDocumentLoader.__init__]; the directory is given as the
    absolute path [Path(data_dir).resolve()] stands for. *)
Definition OptimizedDocumentLoader_init (data_dir : string) (max_workers : Z)
  : OptimizedDocumentLoader * list LogRecord :=
  ({| data_path := data_dir; max_workers := max_workers |},
   [LogInitialized data_dir]).

Section Loader.
(** [loader_class(str(file_path)).load()]: the format-specific parser,
    an external collaborator; it returns records or raises. *)
Variable run_loader : LoaderClass → string → Result (list Document).

(** [as_completed]: the order in which the submitted futures finish. *)
Variable as_completed : list string → list string.

(** The order in which the worker threads reach their logging call. *)
Variable log_order : list string → list string.

(** [Path.rglob('*')] below a directory, in enumeration order. *)
Variable rglob : string → list DirEntry.

Definition is_supported (item : DirEntry) : bool :=
  entry_is_file item
  && bool_decide (lower (suffix (entry_path item)) ∈ supported_extensions).

Definition _collect_files (self : OptimizedDocumentLoader)
  : list string * list LogRecord :=
  let files :=
    entry_path <$> filter (λ item, is_supported item = true) (rglob (data_path self)) in
  (files, [LogFound (length files)]).

Definition _load_single_file (file_path : string)
  : list Document * list LogRecord :=
  let extension := lower (suffix file_path) in
  match LOADER_MAP !! extension with
  | None => ([], [LogNoLoader extension file_path])
  | Some loader_class =>
      match run_loader loader_class file_path with
      | Ok docs => (docs, [LogLoaded (length docs) (name file_path)])
      | Raise e => ([], [LogFailed file_path e])
      end
  end.

(** [ThreadPoolExecutor(max_workers=n)] raises [ValueError] for [n <= 0].
    [future.result()] re-raises what the submitted call raised, and
    [_load_single_file] has caught every [Exception] already, so the
    [except] of line 97 is never entered. *)
Definition load_all_parallel (self : OptimizedDocumentLoader)
  : Result (list Document) * list LogRecord :=
  let '(files, log0) := _collect_files self in
  if max_workers self <=? 0
  then (Raise (Exception "max_workers must be greater than 0"), log0)
  else
    let documents := as_completed files ≫= (λ f, (_load_single_file f).1) in
    let worker_log := log_order files ≫= (λ f, (_load_single_file f).2) in
    (Ok documents, log0 ++ worker_log ++ [LogTotal (length documents)]).

(** [load_lazy] is a generator.  Its state between two [next] calls: not
    started yet; suspended at the [yield] with the files still to visit and
    the records of the current file still to yield; or returned. *)
Inductive LazyState : Type :=
| Created
| Suspended (files : list string) (docs : list Document)
| Finished.

(** The outer [for] loop, entered with the files left: load file after
    file until one has a record to yield. *)
Fixpoint lazy_advance (files : list string)
  : option Document * LazyState * list LogRecord :=
  match files with
  | [] => (None, Finished, [])
  | file_path :: rest =>
      let '(docs, lg) := _load_single_file file_path in
      match docs with
      | doc :: docs' => (Some doc, Suspended rest docs', lg)
      | [] => let '(r, st, lg') := lazy_advance rest in (r, st, lg ++ lg')
      end
  end.

(** One [next(gen)]: [None] stands for [StopIteration]. *)
Definition lazy_next (self : OptimizedDocumentLoader) (st : LazyState)
  : option Document * LazyState * list LogRecord :=
  match st with
  | Created =>
      let '(files, log0) := _collect_files self in
      let '(r, st', lg) := lazy_advance files in (r, st', log0 ++ lg)
  | Suspended files (doc :: docs') => (Some doc, Suspended files docs', [])
  | Suspended files [] => lazy_advance files
  | Finished => (None, Finished, [])
  end.

(** The first [n] records a consumer pulls out of the generator, as
    [itertools.islice(gen, n)] would. *)
Fixpoint lazy_take (self : OptimizedDocumentLoader) (n : nat) (st : LazyState)
  : list Document * list LogRecord :=
  match n with
  | O => ([], [])
  | S n' =>
      let '(r, st', lg) := lazy_next self st in
      match r with
      | Some doc =>
          let '(docs, lg') := lazy_take self n' st' in (doc :: docs, lg ++ lg')
      | None => ([], lg)
      end
  end.

Definition load_lazy (self : OptimizedDocumentLoader) (n : nat)
  : list Document * list LogRecord :=
  lazy_take self n Created.

(** The log of [load_by_type]: the records of the calls it makes, and the
    record of its own logging call. *)
Inductive ByTypeLogRecord : Type :=
| LogLoading (n : nat) (file_types : list string)   (* line 129 *)
| LogCall (r : LogRecord).

(** [load_by_type]: [future.result()] is not guarded here, and cannot
    raise, [_load_single_file] having caught every [Exception]. *)
Definition load_by_type (self : OptimizedDocumentLoader)
    (file_types : list string)
  : Result (list Document) * list ByTypeLogRecord :=
  let '(files, log0) := _collect_files self in
  let filtered_files := filter (λ f, lower (suffix f) ∈ file_types) files in
  let log1 :=
    (LogCall <$> log0) ++ [LogLoading (length filtered_files) file_types] in
  if max_workers self <=? 0
  then (Raise (Exception "max_workers must be greater than 0"), log1)
  else
    let documents :=
      as_completed filtered_files ≫= (λ f, (_load_single_file f).1) in
    let worker_log :=
      log_order filtered_files ≫= (λ f, (_load_single_file f).2) in
    (Ok documents, log1 ++ (LogCall <$> worker_log)).

(** [load_all_documents(data_dir, max_workers=4)] *)
Definition load_all_documents (data_dir : string) (max_workers : Z)
  : Result (list Document) * list LogRecord :=
  let '(loader, log0) := OptimizedDocumentLoader_init data_dir max_workers in
  let '(r, lg) := load_all_parallel loader in
  (r, log0 ++ lg).

End Loader.

End DataLoader.

(** ** pipeline/vectorstore.py *)

Module VectorStore.
Import DataLoader.

(** Modelled from the spec: the contents of the two persisted artifacts.
    [pipeline/vectorstore.py] is not among the sources; the index file
    holds one embedding vector per row, the metadata file one metadata
    record per row, and anything else under a path is some other file.
    Vector components are kept as integers. *)
Inductive File : Type :=
| IndexFile (rows : list (list Z))
| MetadataFile (records : list (gmap string string))
| OtherFile (content : string).

(** One entry of the list [query] returns; [metadata] is [None] for
    Python's [None]. *)
Record QueryResult : Type := {
  metadata : option (gmap string string);
  distance : Z;
}.

(** What [search.py] uses of the class [FaissVectorStore]: the constructor
    and the three methods it calls, over the files of the persistence
    directory.  A method that mutates [self] returns the new object. *)
Class VectorStoreApi (Store : Type) : Type := {
  FaissVectorStore : string → string → Store;
  build_from_documents :
    Store → list Document → gmap string File → Result Store * gmap string File;
  load : Store → gmap string File → Result Store;
  query : Store → string → Z → Result (list QueryResult);
}.

(** Modelled from the spec: the in-memory store, "an in-memory structure
    mapping embedding vectors to integer row identifiers" ([index], absent
    before the first build or load) and "an ordered sequence of metadata
    records, one per indexed vector" ([store_metadata]). *)
Record FaissStore : Type := {
  persist_dir : string;
  embedding_model : string;
  index : option (list (list Z));
  store_metadata : list (gmap string string);
}.

Definition faiss_path (dir : string) : string := path_join dir "faiss.index".
Definition meta_path (dir : string) : string := path_join dir "metadata.pkl".

(** Ranking of scored rows [(row, distance)]: a stable insertion sort on
    the distance alone. *)
Fixpoint insert_row (x : nat * Z) (l : list (nat * Z)) : list (nat * Z) :=
  match l with
  | [] => [x]
  | y :: l' => if x.2 <=? y.2 then x :: y :: l' else y :: insert_row x l'
  end.

Fixpoint rank_rows (l : list (nat * Z)) : list (nat * Z) :=
  match l with
  | [] => []
  | x :: l' => insert_row x (rank_rows l')
  end.

Section Faiss.
(** The embedding function (text to a fixed-dimension vector) and the
    distance of the similarity index, both external. *)
Variable embed : string → string → list Z.
Variable dist : list Z → list Z → Z.

(** Modelled from the spec: the metadata record kept for a document
    record, its metadata mapping together with its text (the facade reads
    the key [text] back). *)
Definition record_metadata (doc : Document) : gmap string string :=
  <["text" := page_content doc]> (doc_metadata doc).

(** Modelled from the spec: [build_from_documents] "embeds every record's
    text, constructs a fresh similarity index over all embeddings, writes
    index + metadata to two paired artifacts, replacing any prior ones". *)
Definition faiss_build (self : FaissStore) (docs : list Document)
    (fs : gmap string File) : Result FaissStore * gmap string File :=
  let rows := (λ doc, embed (embedding_model self) (page_content doc)) <$> docs in
  let records := record_metadata <$> docs in
  (Ok {| persist_dir := persist_dir self;
         embedding_model := embedding_model self;
         index := Some rows;
         store_metadata := records |},
   <[meta_path (persist_dir self) := MetadataFile records]>
     (<[faiss_path (persist_dir self) := IndexFile rows]> fs)).

(** Modelled from the spec: [load] "reads both artifacts into memory; fails
    if either is missing or the row counts disagree". *)
Definition faiss_load (self : FaissStore) (fs : gmap string File)
  : Result FaissStore :=
  match fs !! faiss_path (persist_dir self), fs !! meta_path (persist_dir self) with
  | Some (IndexFile rows), Some (MetadataFile records) =>
      if (length rows =? length records)%nat
      then Ok {| persist_dir := persist_dir self;
                 embedding_model := embedding_model self;
                 index := Some rows;
                 store_metadata := records |}
      else Raise (Exception "index and metadata row counts disagree")
  | Some (IndexFile _), Some _ => Raise (Exception "metadata file unreadable")
  | Some _, Some _ => Raise (Exception "index file unreadable")
  | None, _ => Raise (Exception "index file missing")
  | _, None => Raise (Exception "metadata file missing")
  end.

(** Modelled from the spec: the rows of the index scored against the
    embedded query, ranked "by increasing distance (best match first),
    ties broken by index row order (stable)", cut to the [top_k] closest;
    "[top_k] greater than the index size returns all available rows". *)
Definition score_rows (q : list Z) (rows : list (list Z)) : list (nat * Z) :=
  imap (λ i v, (i, dist q v)) rows.

Definition query_rows (self : FaissStore) (text : string) (top_k : Z)
  : Result (list (nat * Z)) :=
  match index self with
  | None => Raise (Exception "query before build or load")
  | Some rows =>
      Ok (take (Z.to_nat top_k)
            (rank_rows (score_rows (embed (embedding_model self) text) rows)))
  end.

(** Modelled from the spec: [query] "returns the [top_k] closest records as
    (metadata, distance) pairs". *)
Definition faiss_query (self : FaissStore) (text : string) (top_k : Z)
  : Result (list QueryResult) :=
  match query_rows self text top_k with
  | Ok ranked =>
      Ok ((λ r, {| metadata := store_metadata self !! r.1; distance := r.2 |})
            <$> ranked)
  | Raise e => Raise e
  end.

#[local] Instance faiss_api : VectorStoreApi FaissStore := {|
  FaissVectorStore dir model :=
    {| persist_dir := dir; embedding_model := model;
       index := None; store_metadata := [] |};
  build_from_documents := faiss_build;
  load := faiss_load;
  query := faiss_query;
|}.

End Faiss.

End VectorStore.

(** ** pipeline/search.py *)

Module Search.
Import DataLoader VectorStore.

(** The calls [RAGSearch] makes out of its own module, and the log records
    of the loader, in the order they happen. *)
Inductive Event : Type :=
| EvLoadAllDocuments (data_dir : string)
| EvLog (r : LogRecord)
| EvBuild (docs : list Document)
| EvLoad
| EvQuery (text : string) (top_k : Z)
| EvInvoke (messages : list string).

Record World : Type := {
  files : gmap string File;
  trace : list Event;
}.

(** State and exceptions: a computation runs in a world and ends with a
    value or a raised exception, and the world it leaves behind. *)
Definition M (A : Type) : Type := World → Result A * World.

Definition ret {A} (a : A) : M A := λ w, (Ok a, w).

Definition bind {A B} (m : M A) (k : A → M B) : M B :=
  λ w, match m w with
       | (Ok a, w') => k a w'
       | (Raise e, w') => (Raise e, w')
       end.

Definition emit (evs : list Event) : M unit :=
  λ w, (Ok tt, {| files := files w; trace := trace w ++ evs |}).

Definition lift {A} (r : Result A) : M A := λ w, (r, w).

Definition get_files : M (gmap string File) := λ w, (Ok (files w), w).

Definition put_files (fs : gmap string File) : M unit :=
  λ w, (Ok tt, {| files := fs; trace := trace w |}).

#[global] Instance M_ret : MRet M := @ret.
#[global] Instance M_bind : MBind M := λ A B k m, bind m k.

(** [os.path.exists] *)
Definition path_exists (path : string) : M bool :=
  λ w, (Ok (bool_decide (is_Some (files w !! path))), w).

(** The chat client of [langchain_groq]: [ChatGroq(groq_api_key=...,
    model_name=...)] and [client.invoke(messages).content]. *)
Class ChatApi (Llm : Type) : Type := {
  ChatGroq : option string → string → Result Llm;
  invoke : Llm → list string → Result string;
}.

Record RAGSearch (Store Llm : Type) : Type := {
  vectorstore : Store;
  llm : Llm;
}.
Arguments vectorstore {Store Llm} _.
Arguments llm {Store Llm} _.

Definition NO_RESULTS : string := "No relevant documents found.".

Definition nl : string := String (ascii_of_nat 10) "".

Section Facade.
Context {Store : Type} `{!VectorStoreApi Store}.
Context {Llm : Type} `{!ChatApi Llm}.

(** The loader's collaborators (see [DataLoader]). *)
Variable run_loader : LoaderClass → string → Result (list Document).
Variable as_completed : list string → list string.
Variable log_order : list string → list string.
Variable rglob : string → list Pathlib.DirEntry.

(** [os.path.dirname(os.path.abspath(__file__))], [os.path.normpath] and
    [os.getenv]. *)
Variable module_dir : string.
Variable normpath : string → string.
Variable getenv : string → option string.

Definition call_load_all_documents (data_dir : string) : M (list Document) :=
  emit [EvLoadAllDocuments data_dir] ;;
  let '(r, lg) := load_all_documents run_loader as_completed log_order rglob data_dir 4 in
  emit (EvLog <$> lg) ;;
  lift r.

Definition call_build (vs : Store) (docs : list Document) : M Store :=
  emit [EvBuild docs] ;;
  fs ← get_files;
  let '(r, fs') := build_from_documents vs docs fs in
  put_files fs' ;;
  lift r.

Definition call_load (vs : Store) : M Store :=
  emit [EvLoad] ;;
  fs ← get_files;
  lift (load vs fs).

(** [RAGSearch.__init__] *)
Definition RAGSearch_init (persist_dir : option string)
    (embedding_model llm_model : string) : M (RAGSearch Store Llm) :=
  let persist_dir :=
    match persist_dir with
    | Some d => d
    | None => normpath (path_join (path_join module_dir "..") "faiss_store")
    end in
  let vs := FaissVectorStore persist_dir embedding_model in
  let faiss_path := path_join persist_dir "faiss.index" in
  let meta_path := path_join persist_dir "metadata.pkl" in
  have_faiss ← path_exists faiss_path;
  have_meta ← path_exists meta_path;
  vs ← (if negb (have_faiss && have_meta)
        then
          let data_dir := normpath (path_join (path_join module_dir "..") "data") in
          docs ← call_load_all_documents data_dir;
          call_build vs docs
        else call_load vs);
  let groq_api_key := getenv "API_KEY" in
  client ← lift (ChatGroq groq_api_key llm_model);
  mret {| vectorstore := vs; llm := client |}.

(** Line 53: [r["metadata"]] is kept when it is truthy, that is neither
    [None] nor an empty mapping, and gives [.get("text", "")]. *)
Definition truthy (md : option (gmap string string)) : bool :=
  match md with
  | Some m => bool_decide (m ≠ ∅)
  | None => false
  end.

Definition result_text (r : QueryResult) : string :=
  match metadata r with
  | Some m => default "" (m !! "text")
  | None => ""
  end.

Definition result_texts (results : list QueryResult) : list string :=
  result_text <$> filter (λ r, truthy (metadata r) = true) results.

Definition make_prompt (query context : string) : string :=
  "Summarize the following context for the query: '" +:+ query +:+ "'"
    +:+ nl +:+ nl +:+ "Context:" +:+ nl +:+ context
    +:+ nl +:+ nl +:+ "Summary:".

(** Lines 53 to 59, on the list the store returned. *)
Definition summarize (self : RAGSearch Store Llm) (query : string)
    (results : list QueryResult) : M string :=
  let texts := result_texts results in
  let context := join (nl +:+ nl) texts in
  if (String.length context =? 0)%nat
  then mret NO_RESULTS
  else
    let prompt := make_prompt query context in
    emit [EvInvoke [prompt]] ;;
    lift (invoke (llm self) [prompt]).

(** [RAGSearch.search_and_summarize] *)
Definition search_and_summarize (self : RAGSearch Store Llm)
    (query_text : string) (top_k : Z) : M string :=
  emit [EvQuery query_text top_k] ;;
  results ← lift (query (vectorstore self) query_text top_k);
  summarize self query_text results.

End Facade.

End Search.

(** ** build_index.py and app.py *)

Module Scripts.
Import DataLoader VectorStore Search.

Section Main.
Context {Store : Type} `{!VectorStoreApi Store}.
Context {Llm : Type} `{!ChatApi Llm}.
Variable run_loader : LoaderClass → string → Result (list Document).
Variable as_completed : list string → list string.
Variable log_order : list string → list string.
Variable rglob : string → list Pathlib.DirEntry.
Variable module_dir : string.
Variable normpath : string → string.
Variable getenv : string → option string.

(** The embedding model [FaissVectorStore(persist_dir)] takes when none is
    given: the default of a parameter declared in [pipeline/vectorstore.py]. *)
Variable default_embedding_model : string.


(** [RAGSearch()], every parameter at its default. *)
Definition RAGSearch_default : M (RAGSearch Store Llm) :=
  RAGSearch_init run_loader as_completed log_order rglob module_dir normpath
    getenv None "all-MiniLM-L6-v2" "llama-3.1-8b-instant".

(** [app.py], the body under [__main__]; the value is the line printed. *)
Definition app_main : M string :=
  let store := FaissVectorStore "faiss_store" default_embedding_model in
  _ ← call_load store;
  rag_search ← RAGSearch_default;
  let query := "What is attention mechanism?" in
  summary ← search_and_summarize rag_search query 3;
  mret ("Summary: " +:+ summary).

End Main.

End Scripts.

Import Pathlib DataLoader VectorStore Search Scripts.

(** ** The specification's extension table *)

(** The six supported extensions with their parser classes, as the
    specification lists them. *)
Definition designated : list (string * LoaderClass) :=
  [ (".pdf", PyPDFLoader); (".txt", TextLoader); (".csv", CSVLoader);
    (".xlsx", UnstructuredExcelLoader); (".docx", Docx2txtLoader);
    (".json", JSONLoader) ].

(** ** Vocabulary of the ingestion properties *)

Section LoaderVocabulary.
Variable run_loader : LoaderClass → string → Result (list Document).

(** What the parser designated for a file does on it, if there is one. *)
Definition parser_result (file_path : string) : option (Result (list Document)) :=
  match LOADER_MAP !! lower (suffix file_path) with
  | Some cls => Some (run_loader cls file_path)
  | None => None
  end.

(** A parseable file: its parser returns records. *)
Definition parseable (file_path : string) : bool :=
  match parser_result file_path with
  | Some (Ok _) => true
  | _ => false
  end.

(** A corrupt file: its parser raises. *)
Definition corrupt (file_path : string) : bool :=
  match parser_result file_path with
  | Some (Raise _) => true
  | _ => false
  end.

(** The records a parseable file holds. *)
Definition records (file_path : string) : list Document :=
  match parser_result file_path with
  | Some (Ok docs) => docs
  | _ => []
  end.

Definition is_error (r : LogRecord) : bool :=
  match levelname r with ERROR => true | _ => false end.

End LoaderVocabulary.

(** ** Vocabulary of the store properties *)

(** A scored row [(row, distance)] is ranked before another: it is
    strictly closer, or as close and earlier in the index. *)
Definition ranks_before (x y : nat * Z) : Prop :=
  x.2 < y.2 ∨ (x.2 = y.2 ∧ (x.1 < y.1)%nat).

(** The store is in the state a build or a successful load leaves. *)
Definition after_build_or_load (embed : string → string → list Z)
    (st : FaissStore) : Prop :=
  (∃ st0 docs fs, (faiss_build embed st0 docs fs).1 = Ok st) ∨
  (∃ st0 fs, faiss_load st0 fs = Ok st).

(** ** Vocabulary of the further properties *)


(** A store persists what it builds: a build that returns leaves both
    artifacts in its directory, and a load of them into a store object of
    the same directory and embedding model gives the store that was
    built. *)
Definition persists_what_it_builds (Store : Type) `{!VectorStoreApi Store}
  : Prop :=
  ∀ dir model docs fs built fs',
    build_from_documents (FaissVectorStore dir model) docs fs = (Ok built, fs') →
    is_Some (fs' !! path_join dir "faiss.index") ∧
    is_Some (fs' !! path_join dir "metadata.pkl") ∧
    load (FaissVectorStore dir model) fs' = Ok built.

(** ** A sample deployment

    A small data directory, parsers, a completion order, an embedding and a
    chat client, on which the properties below are instantiated. *)

Module Sample.

Definition rglob (dir : string) : list DirEntry :=
  if bool_decide (dir = "/data")
  then [ {| entry_path := "/data/a.txt"; entry_is_file := true |};
         {| entry_path := "/data/B.PDF"; entry_is_file := true |};
         {| entry_path := "/data/notes.md"; entry_is_file := true |};
         {| entry_path := "/data/sub"; entry_is_file := false |};
         {| entry_path := "/data/sub/c.json"; entry_is_file := true |} ]
  else [].

Definition doc (text source : string) : Document :=
  {| page_content := text; doc_metadata := {[ "source" := source ]} |}.

(** [JSONLoader(path)] raises: its [jq_schema] argument is missing. *)
Definition run_loader (cls : LoaderClass) (path : string)
  : Result (list Document) :=
  match cls with
  | TextLoader => Ok [doc "alpha" path]
  | PyPDFLoader => Ok [doc "page one" path; doc "page two" path]
  | JSONLoader => Raise (Exception "missing argument: jq_schema")
  | _ => Ok []
  end.

Definition as_completed (futures : list string) : list string := reverse futures.
Definition log_order (futures : list string) : list string := futures.

Definition loader : OptimizedDocumentLoader :=
  {| data_path := "/data"; max_workers := 4 |}.

Definition embed (model text : string) : list Z := [Z.of_nat (String.length text)].

Definition dist (a b : list Z) : Z :=
  match a, b with
  | [x], [y] => (x - y) * (x - y)
  | _, _ => 0
  end.

Definition store_api : VectorStoreApi FaissStore := faiss_api embed dist.

Definition chat_api : ChatApi unit :=
  {| ChatGroq := λ _ _, Ok tt; invoke := λ _ _, Ok "A summary." |}.

Definition documents : list Document :=
  [doc "alpha" "/data/a.txt"; doc "page one" "/data/B.PDF";
   doc "page two" "/data/B.PDF"; doc "gamma" "/data/c.txt"].

Definition fresh : FaissStore :=
  {| persist_dir := "faiss_store"; embedding_model := "all-MiniLM-L6-v2";
     index := None; store_metadata := [] |}.

Definition built : FaissStore :=
  {| persist_dir := "faiss_store"; embedding_model := "all-MiniLM-L6-v2";
     index := Some ((λ d, embed "all-MiniLM-L6-v2" (page_content d)) <$> documents);
     store_metadata := record_metadata <$> documents |}.

(** A persisted store of two rows whose metadata records carry a source
    and no text. *)
Definition textless_files : gmap string File :=
  {[ "faiss_store/faiss.index" := IndexFile [[1]; [2]];
     "faiss_store/metadata.pkl" :=
       MetadataFile [ {[ "source" := "/data/a.txt" ]};
                      {[ "source" := "/data/b.txt" ]} ] ]}.

Definition textless : FaissStore :=
  {| persist_dir := "faiss_store"; embedding_model := "all-MiniLM-L6-v2";
     index := Some [[1]; [2]];
     store_metadata := [ {[ "source" := "/data/a.txt" ]};
                         {[ "source" := "/data/b.txt" ]} ] |}.

Definition world : World := {| files := textless_files; trace := [] |}.

Definition textless_search : RAGSearch FaissStore unit :=
  {| vectorstore := textless; llm := tt |}.

Definition built_search : RAGSearch FaissStore unit :=
  {| vectorstore := built; llm := tt |}.

(** A loader on a directory that is not there, the place of [search.py],
    and the environment. *)
Definition empty_loader : OptimizedDocumentLoader :=
  {| data_path := "/nowhere"; max_workers := 4 |}.

Definition module_dir : string := "/app/pipeline".
Definition normpath (path : string) : string := path.
Definition getenv (key : string) : option string := Some "secret".

Definition empty_world : World := {| files := ∅; trace := [] |}.

End Sample.

(** * Properties *)

(** ** Strings *)

Lemma lower_ascii_idemp c : lower_ascii (lower_ascii c) = lower_ascii c.
Proof. by destruct c as [[] [] [] [] [] [] [] []]. Qed.

Lemma lower_idemp s : lower (lower s) = lower s.
Proof. induction s as [|c s IH]; simpl; [done|]. by rewrite lower_ascii_idemp, IH. Qed.

Lemma lower_length s : String.length (lower s) = String.length s.
Proof. induction s as [|c s IH]; simpl; congruence. Qed.

(** Lowering a character neither makes nor unmakes a dot or a slash. *)
Lemma lower_ascii_eqb_dot c :
  Ascii.eqb (lower_ascii c) "." = Ascii.eqb c ".".
Proof. by destruct c as [[] [] [] [] [] [] [] []]. Qed.

Lemma lower_ascii_eqb_slash c :
  Ascii.eqb (lower_ascii c) "/" = Ascii.eqb c "/".
Proof. by destruct c as [[] [] [] [] [] [] [] []]. Qed.

Lemma rfind_lower c s :
  (∀ a, Ascii.eqb (lower_ascii a) c = Ascii.eqb a c) →
  rfind c (lower s) = rfind c s.
Proof.
  intros Hc. induction s as [|a s IH]; simpl; [done|].
  by rewrite IH, Hc.
Qed.

Lemma substring_lower n m s :
  String.substring n m (lower s) = lower (String.substring n m s).
Proof.
  revert n m. induction s as [|a s IH]; intros [|n] [|m]; simpl; try done;
    by rewrite IH.
Qed.

Lemma name_lower p : name (lower p) = lower (name p).
Proof.
  unfold name. rewrite (rfind_lower _ _ lower_ascii_eqb_slash).
  destruct (rfind "/" p); [|done].
  by rewrite lower_length, substring_lower.
Qed.

(** The suffix of the lowercased path is the lowercased suffix. *)
Lemma suffix_lower p : suffix (lower p) = lower (suffix p).
Proof.
  unfold suffix. rewrite name_lower, (rfind_lower _ _ lower_ascii_eqb_dot).
  destruct (rfind "." (name p)); [|done].
  rewrite lower_length, substring_lower.
  by destruct (_ && _).
Qed.



Lemma append_inj_l (s t u : string) : s +:+ t = s +:+ u → t = u.
Proof.
  induction s as [|c s IH]; [done|]. unfold String.app in *. simpl.
  intros [=]. auto.
Qed.

Lemma append_length (s t : string) :
  String.length (s +:+ t) = (String.length s + String.length t)%nat.
Proof.
  induction s as [|c s IH]; [done|]. unfold String.app in *. simpl. by rewrite IH.
Qed.

(** ** The extension table *)

Lemma designated_lookup ext cls :
  (ext, cls) ∈ designated → LOADER_MAP !! ext = Some cls.
Proof.
  unfold designated. rewrite !elem_of_cons, elem_of_nil.
  intros [?|[?|[?|[?|[?|[?|[]]]]]]]; simplify_eq; reflexivity.
Qed.

Lemma lookup_designated ext cls :
  LOADER_MAP !! ext = Some cls → (ext, cls) ∈ designated.
Proof.
  intros Hl. apply (elem_of_list_to_map_2 (M:=gmap string)) in Hl. exact Hl.
Qed.

Lemma designated_lower ext cls : (ext, cls) ∈ designated → lower ext = ext.
Proof.
  unfold designated. rewrite !elem_of_cons, elem_of_nil.
  intros [?|[?|[?|[?|[?|[?|[]]]]]]]; simplify_eq; reflexivity.
Qed.

Lemma supported_designated ext :
  ext ∈ supported_extensions ↔ ∃ cls, (ext, cls) ∈ designated.
Proof.
  unfold supported_extensions. rewrite elem_of_dom. split.
  - intros [cls Hc]. exists cls. by apply lookup_designated.
  - intros [cls Hc]. exists cls. by apply designated_lookup.
Qed.

Lemma unsupported_lookup ext :
  ext ∉ supported_extensions → LOADER_MAP !! ext = None.
Proof. unfold supported_extensions. by rewrite not_elem_of_dom. Qed.

(** ** Ingestion: collection and dispatch *)

Section LoaderFacts.
Variable run_loader : LoaderClass → string → Result (list Document).
Variable rglob : string → list DirEntry.

Lemma collected_supported self file_path :
  file_path ∈ (_collect_files rglob self).1 →
  lower (suffix file_path) ∈ supported_extensions.
Proof.
  unfold _collect_files. simpl.
  intros (item & -> & Hin)%list_elem_of_fmap.
  apply list_elem_of_filter in Hin as [Hs _].
  unfold is_supported in Hs. apply andb_true_iff in Hs as [_ Hs].
  by apply bool_decide_eq_true in Hs.
Qed.

Lemma collected_intro self item :
  item ∈ rglob (data_path self) →
  entry_is_file item = true →
  lower (suffix (entry_path item)) ∈ supported_extensions →
  entry_path item ∈ (_collect_files rglob self).1.
Proof.
  intros Hin Hf Hs. unfold _collect_files. simpl.
  apply list_elem_of_fmap_2, list_elem_of_filter. split; [|done].
  unfold is_supported. rewrite Hf. simpl. by apply bool_decide_eq_true.
Qed.

Lemma load_single_routed file_path cls :
  LOADER_MAP !! lower (suffix file_path) = Some cls →
  _load_single_file run_loader file_path =
    match run_loader cls file_path with
    | Ok docs => (docs, [LogLoaded (length docs) (name file_path)])
    | Raise e => ([], [LogFailed file_path e])
    end.
Proof. intros Hl. unfold _load_single_file. by rewrite Hl. Qed.

Lemma load_single_records file_path :
  lower (suffix file_path) ∈ supported_extensions →
  (_load_single_file run_loader file_path).1 = records run_loader file_path.
Proof.
  intros Hs. apply supported_designated in Hs as [cls Hc%designated_lookup].
  unfold _load_single_file, records, parser_result. rewrite Hc.
  by destruct (run_loader cls file_path).
Qed.

(** C4: a file whose lowercased suffix is one of the six supported
    extensions is handed to the parser class designated for that extension,
    and the outcome of that parser is the outcome of [_load_single_file];
    a file with any other extension is never collected, and loading it
    directly gives no record and one log record of level WARNING. *)
Theorem extension_routing self file_path :
  (∀ ext cls,
     (ext, cls) ∈ designated →
     lower (suffix file_path) = ext →
     LOADER_MAP !! lower (suffix file_path) = Some cls ∧
     _load_single_file run_loader file_path =
       match run_loader cls file_path with
       | Ok docs => (docs, [LogLoaded (length docs) (name file_path)])
       | Raise e => ([], [LogFailed file_path e])
       end) ∧
  ((∀ cls, (lower (suffix file_path), cls) ∉ designated) →
     (file_path ∉ (_collect_files rglob self).1) ∧
     _load_single_file run_loader file_path =
       ([], [LogNoLoader (lower (suffix file_path)) file_path]) ∧
     levelname (LogNoLoader (lower (suffix file_path)) file_path) = WARNING).
Proof.
  split.
  - intros ext cls Hd <-. apply designated_lookup in Hd.
    split; [done|]. by apply load_single_routed.
  - intros Hno.
    assert (lower (suffix file_path) ∉ supported_extensions) as Hns.
    { rewrite supported_designated. intros [cls Hc]. by apply (Hno cls). }
    split_and!; [|by unfold _load_single_file; rewrite (unsupported_lookup _ Hns)|done].
    intros Hin. by apply Hns, (collected_supported self).
Qed.

(** C10: matching is case-insensitive.  A regular file below the data
    directory whose suffix equals a supported extension up to letter case is
    collected, and it is handed to the parser class of that extension, the
    same class its all-lowercase path is handed to. *)
Theorem extension_case_insensitive self item ext cls :
  item ∈ rglob (data_path self) →
  entry_is_file item = true →
  (ext, cls) ∈ designated →
  lower (suffix (entry_path item)) = lower ext →
  (entry_path item ∈ (_collect_files rglob self).1) ∧
  LOADER_MAP !! lower (suffix (entry_path item)) = Some cls ∧
  LOADER_MAP !! lower (suffix (lower (entry_path item))) = Some cls ∧
  _load_single_file run_loader (entry_path item) =
    match run_loader cls (entry_path item) with
    | Ok docs => (docs, [LogLoaded (length docs) (name (entry_path item))])
    | Raise e => ([], [LogFailed (entry_path item) e])
    end.
Proof.
  intros Hin Hf Hd Hs.
  rewrite (designated_lower _ _ Hd) in Hs.
  pose proof (designated_lookup _ _ Hd) as Hl.
  assert (LOADER_MAP !! lower (suffix (entry_path item)) = Some cls) as Hr
    by (by rewrite Hs).
  split_and!.
  - apply collected_intro; [done..|]. rewrite Hs.
    apply supported_designated. by exists cls.
  - done.
  - by rewrite suffix_lower, lower_idemp.
  - by apply load_single_routed.
Qed.

End LoaderFacts.

(** ** Ingestion: the eager and the lazy path *)

Section IngestionFacts.
Variable run_loader : LoaderClass → string → Result (list Document).
Variable as_completed : list string → list string.
Variable log_order : list string → list string.
Variable rglob : string → list DirEntry.

Local Abbreviation load_one := (_load_single_file run_loader).


Lemma load_single_corrupt file_path :
  corrupt run_loader file_path = true →
  ∃ e, load_one file_path = ([], [LogFailed file_path e]).
Proof.
  unfold corrupt, parser_result, _load_single_file.
  destruct (LOADER_MAP !! _) as [cls|]; [|done].
  destruct (run_loader cls file_path) as [docs|e]; [done|]. by exists e.
Qed.


Lemma records_parseable (files : list string) :
  Forall (λ f, lower (suffix f) ∈ supported_extensions) files →
  files ≫= (λ f, (load_one f).1) =
  filter (λ f, parseable run_loader f = true) files ≫= records run_loader.
Proof.
  induction 1 as [|f files Hf _ IH]; [done|].
  rewrite bind_cons, IH, (load_single_records _ _ Hf).
  destruct (parseable run_loader f) eqn:Hp.
  - rewrite filter_cons_True by done. by rewrite bind_cons.
  - rewrite filter_cons_False by (by rewrite Hp).
    assert (records run_loader f = []) as ->; [|done].
    unfold parseable, records in *.
    by destruct (parser_result run_loader f) as [[docs|e]|].
Qed.

Lemma error_count (files : list string) :
  Forall (λ f, lower (suffix f) ∈ supported_extensions) files →
  length (filter (λ r, is_error r = true) (files ≫= (λ f, (load_one f).2))) =
  length (filter (λ f, corrupt run_loader f = true) files).
Proof.
  induction 1 as [|f files Hf _ IH]; [done|].
  rewrite bind_cons, filter_app, length_app, IH, filter_cons.
  apply supported_designated in Hf as [cls Hc%designated_lookup].
  unfold corrupt, parser_result, _load_single_file. rewrite Hc.
  by destruct (run_loader cls f).
Qed.

Lemma collected_all_supported self :
  Forall (λ f, lower (suffix f) ∈ supported_extensions)
    (_collect_files rglob self).1.
Proof. apply Forall_forall. intros f. apply collected_supported. Qed.

(** C3: with a worker pool of positive size, whatever the order in which
    the workers finish, the eager path returns (it does not raise); what it
    returns is, up to order, the records of the parseable files among the
    collected ones; a corrupt file gives no record and one ERROR record in
    the log, and the log has exactly one ERROR record per corrupt file. *)
Theorem ingestion_survives_corrupt_files self :
  0 < max_workers self →
  (∀ l, as_completed l ≡ₚ l) →
  (∀ l, log_order l ≡ₚ l) →
  let files := (_collect_files rglob self).1 in
  ∃ documents log,
    load_all_parallel run_loader as_completed log_order rglob self
      = (Ok documents, log) ∧
    documents ≡ₚ
      filter (λ f, parseable run_loader f = true) files ≫= records run_loader ∧
    (∀ f, f ∈ files → corrupt run_loader f = true →
       ∃ e, load_one f = ([], [LogFailed f e]) ∧ LogFailed f e ∈ log) ∧
    length (filter (λ r, is_error r = true) log) =
      length (filter (λ f, corrupt run_loader f = true) files).
Proof.
  intros Hw Hc Hl files.
  pose proof (collected_all_supported self) as Hsup. fold files in Hsup.
  unfold load_all_parallel.
  change (_collect_files rglob self) with (files, [LogFound (length files)]).
  cbv beta iota.
  destruct (Z.leb_spec (max_workers self) 0) as [?|_]; [lia|].
  eexists _, _. split_and!; [done| | |].
  - rewrite (Hc files). by rewrite records_parseable.
  - intros f Hf Hcor. destruct (load_single_corrupt _ Hcor) as [e He].
    exists e. split; [done|].
    apply elem_of_app. right. apply elem_of_app. left.
    apply list_elem_of_bind. exists f. rewrite He. simpl.
    split; [apply list_elem_of_singleton; done|]. by rewrite (Hl files).
  - rewrite !filter_app, !length_app, (Hl files), error_count by done.
    simpl. lia.
Qed.

End IngestionFacts.

Section LazyFacts.
Variable run_loader : LoaderClass → string → Result (list Document).
Variable rglob : string → list DirEntry.

Local Abbreviation load_one := (_load_single_file run_loader).
Local Abbreviation docs_of := (λ f : string, (load_one f).1).
Local Abbreviation log_of := (λ f : string, (load_one f).2).

(** Advancing through the files stops at the first record there is, and
    has loaded, in order, every file up to the one that record is in. *)
Lemma lazy_advance_spec (files : list string) :
  match lazy_advance run_loader files with
  | (Some doc, st, lg) =>
      ∃ rest docs, st = Suspended rest docs ∧
        files ≫= docs_of = doc :: docs ++ rest ≫= docs_of ∧
        files ≫= log_of = lg ++ rest ≫= log_of
  | (None, st, lg) =>
      st = Finished ∧ files ≫= docs_of = [] ∧ files ≫= log_of = lg
  end.
Proof.
  induction files as [|f files IH]; [done|].
  rewrite !bind_cons. cbn [lazy_advance].
  destruct (load_one f) as [[|doc docs] lg] eqn:Hf; cbn [fst snd].
  - destruct (lazy_advance run_loader files) as [[[doc|] st] lg'].
    + destruct IH as (rest & docs & -> & Hd & Hl).
      exists rest, docs. by rewrite Hd, Hl, (assoc_L (++)).
    + destruct IH as (-> & Hd & Hl). by rewrite Hd, Hl.
  - by exists files, docs.
Qed.

Lemma lazy_take_suspended self (n : nat) (files : list string) docs :
  (lazy_take run_loader rglob self n (Suspended files docs)).1 =
    take n (docs ++ files ≫= docs_of).
Proof.
  revert files docs. induction n as [|n IH]; intros files docs; [done|].
  simpl. destruct docs as [|doc docs].
  - pose proof (lazy_advance_spec files) as Hadv.
    destruct (lazy_advance run_loader files) as [[[doc|] st] lg].
    + destruct Hadv as (rest & docs & -> & Hd & _).
      specialize (IH rest docs).
      destruct (lazy_take run_loader rglob self n (Suspended rest docs)).
      simpl in *. by rewrite Hd, IH.
    + destruct Hadv as (_ & -> & _). done.
  - specialize (IH files docs).
    destruct (lazy_take run_loader rglob self n (Suspended files docs)).
    simpl in *. by rewrite IH.
Qed.

Lemma lazy_take_log_suspended self (n : nat) (files : list string) docs :
  (length (docs ++ files ≫= docs_of) < n)%nat →
  (lazy_take run_loader rglob self n (Suspended files docs)).2 =
    files ≫= log_of.
Proof.
  revert files docs. induction n as [|n IH]; intros files docs Hn; [lia|].
  simpl. destruct docs as [|doc docs].
  - pose proof (lazy_advance_spec files) as Hadv.
    destruct (lazy_advance run_loader files) as [[[doc|] st] lg].
    + destruct Hadv as (rest & docs & -> & Hd & Hl).
      simpl in Hn. rewrite Hd in Hn. simpl in Hn.
      specialize (IH rest docs ltac:(lia)).
      destruct (lazy_take run_loader rglob self n (Suspended rest docs)).
      simpl in *. by rewrite Hl, IH.
    + by destruct Hadv as (_ & _ & ->).
  - simpl in Hn. specialize (IH files docs ltac:(lia)).
    destruct (lazy_take run_loader rglob self n (Suspended files docs)).
    simpl in *. by rewrite IH.
Qed.

Lemma load_lazy_docs self (n : nat) :
  (load_lazy run_loader rglob self n).1 =
    take n ((_collect_files rglob self).1 ≫= docs_of).
Proof.
  unfold load_lazy. destruct n as [|n]; [done|]. simpl.
  set (files := entry_path <$> _).
  pose proof (lazy_advance_spec files) as Hadv.
  destruct (lazy_advance run_loader files) as [[[doc|] st] lg].
  - destruct Hadv as (rest & docs & -> & Hd & _).
    pose proof (lazy_take_suspended self n rest docs) as Ht.
    destruct (lazy_take run_loader rglob self n (Suspended rest docs)).
    simpl in *. by rewrite Hd, Ht.
  - destruct Hadv as (_ & -> & _). done.
Qed.

Lemma load_lazy_log self (n : nat) :
  let files := (_collect_files rglob self).1 in
  (length (files ≫= docs_of) < n)%nat →
  (load_lazy run_loader rglob self n).2 =
    LogFound (length files) :: files ≫= log_of.
Proof.
  unfold load_lazy. destruct n as [|n]; [simpl; lia|]. simpl.
  set (files := entry_path <$> _). intros Hn.
  pose proof (lazy_advance_spec files) as Hadv.
  destruct (lazy_advance run_loader files) as [[[doc|] st] lg].
  - destruct Hadv as (rest & docs & -> & Hd & Hl).
    rewrite Hd in Hn. simpl in Hn.
    pose proof (lazy_take_log_suspended self n rest docs ltac:(lia)) as Ht.
    destruct (lazy_take run_loader rglob self n (Suspended rest docs)).
    simpl in *. by rewrite Hl, Ht.
  - by destruct Hadv as (_ & _ & ->).
Qed.

(** C8: the lazy path hands out the records one [next] at a time, in the
    order the files were enumerated and, within a file, in the order its
    parser gave them; it loads the files one after the other (its log is
    in file order) and uses neither the pool size nor a completion order;
    and the records it yields are, up to order, the records the eager path
    returns for the same directory and the same parsers, whatever the
    order in which the pool (of positive size) completes. *)
Theorem lazy_sequential_and_equivalent self :
  let files := (_collect_files rglob self).1 in
  let yielded := files ≫= docs_of in
  (∀ n, (load_lazy run_loader rglob self n).1 = take n yielded) ∧
  (∀ n, (length yielded < n)%nat →
     load_lazy run_loader rglob self n =
       (yielded, LogFound (length files) :: files ≫= log_of)) ∧
  (∀ as_completed log_order,
     0 < max_workers self →
     (∀ l, as_completed l ≡ₚ l) →
     ∃ documents log,
       load_all_parallel run_loader as_completed log_order rglob self
         = (Ok documents, log) ∧
       documents ≡ₚ yielded).
Proof.
  intros files yielded. split_and!.
  - intros n. apply load_lazy_docs.
  - intros n Hn.
    pose proof (load_lazy_docs self n) as Hd.
    pose proof (load_lazy_log self n Hn) as Hl.
    destruct (load_lazy run_loader rglob self n) as [ds lg]. simpl in *.
    rewrite Hd, Hl. f_equal. apply take_ge. fold files yielded. lia.
  - intros as_completed log_order Hw Hc. unfold load_all_parallel.
    change (_collect_files rglob self) with (files, [LogFound (length files)]).
    cbv beta iota.
    destruct (Z.leb_spec (max_workers self) 0) as [?|_]; [lia|].
    eexists _, _. split; [done|]. by rewrite (Hc files).
Qed.

End LazyFacts.

(** ** Vector store: ranking *)

Lemma insert_row_perm x l : insert_row x l ≡ₚ x :: l.
Proof.
  induction l as [|y l IH]; simpl; [done|].
  destruct (x.2 <=? y.2); [done|]. by rewrite IH, Permutation_swap.
Qed.

Lemma rank_rows_perm l : rank_rows l ≡ₚ l.
Proof.
  induction l as [|x l IH]; simpl; [done|]. by rewrite insert_row_perm, IH.
Qed.

Lemma insert_row_sorted x l :
  StronglySorted ranks_before l →
  Forall (λ y, (x.1 < y.1)%nat) l →
  StronglySorted ranks_before (insert_row x l).
Proof.
  induction l as [|y l IH]; simpl; intros Hs Hlt.
  - repeat constructor.
  - apply StronglySorted_cons in Hs as [Hy Hs].
    apply Forall_cons in Hlt as [Hxy Hlt].
    destruct (Z.leb_spec (x.2) (y.2)) as [Hle|Hgt].
    + apply StronglySorted_cons. split.
      * apply Forall_cons. split.
        { unfold ranks_before. lia. }
        rewrite Forall_forall in Hy, Hlt |- *. intros z Hz.
        specialize (Hy z Hz). specialize (Hlt z Hz).
        unfold ranks_before in *. lia.
      * apply StronglySorted_cons. done.
    + apply StronglySorted_cons. split; [|by apply IH].
      rewrite insert_row_perm. apply Forall_cons. split; [|done].
      unfold ranks_before. lia.
Qed.

Lemma rank_rows_sorted l :
  StronglySorted (λ x y : nat * Z, (x.1 < y.1)%nat) l →
  StronglySorted ranks_before (rank_rows l).
Proof.
  induction l as [|x l IH]; simpl; intros Hs; [constructor|].
  apply StronglySorted_cons in Hs as [Hx Hs].
  apply insert_row_sorted; [by apply IH|]. by rewrite rank_rows_perm.
Qed.

Lemma score_rows_shift (f : list Z → Z) (n : nat) (rows : list (list Z)) :
  StronglySorted (λ x y : nat * Z, (x.1 < y.1)%nat)
    (imap (λ i v, ((n + i)%nat, f v)) rows) ∧
  Forall (λ x : nat * Z, (n ≤ x.1)%nat) (imap (λ i v, ((n + i)%nat, f v)) rows).
Proof.
  revert n. induction rows as [|v rows IH]; intros n.
  - split; constructor.
  - rewrite imap_cons.
    assert (imap ((λ i v0, ((n + i)%nat, f v0)) ∘ S) rows
            = imap (λ i v0, ((S n + i)%nat, f v0)) rows) as ->.
    { apply imap_ext. intros i w _. simpl. f_equal. lia. }
    destruct (IH (S n)) as [Hs Hlb]. split.
    + apply StronglySorted_cons. split; [|done].
      eapply Forall_impl; [exact Hlb|]. simpl. intros; lia.
    + apply Forall_cons. split; [simpl; lia|].
      eapply Forall_impl; [exact Hlb|]. simpl. intros; lia.
Qed.

Lemma score_rows_increasing dist q rows :
  StronglySorted (λ x y : nat * Z, (x.1 < y.1)%nat) (score_rows dist q rows).
Proof. apply (score_rows_shift (dist q) 0 rows). Qed.

Lemma score_rows_lookup dist q rows (i : nat) d :
  (i, d) ∈ score_rows dist q rows →
  ∃ v, rows !! i = Some v ∧ d = dist q v.
Proof.
  intros [j Hj]%list_elem_of_lookup. unfold score_rows in Hj.
  rewrite list_lookup_imap in Hj.
  destruct (rows !! j) as [v|] eqn:Hv; simplify_eq/=. by exists v.
Qed.

Lemma StronglySorted_take {A} (R : relation A) (n : nat) (l : list A) :
  StronglySorted R l → StronglySorted R (take n l).
Proof.
  intros Hs. rewrite <-(take_drop n l) in Hs.
  by apply StronglySorted_app_1_l in Hs.
Qed.

(** ** Vector store: build and load *)

Lemma faiss_paths_differ dir : faiss_path dir ≠ meta_path dir.
Proof.
  unfold faiss_path, meta_path, path_join.
  destruct (_ || _); intros Heq.
  - by apply append_inj_l in Heq.
  - by apply append_inj_l, append_inj_l in Heq.
Qed.

Section StoreFacts.
Variable embed : string → string → list Z.
Variable dist : list Z → list Z → Z.

Lemma build_invariant st0 docs fs st :
  (faiss_build embed st0 docs fs).1 = Ok st →
  ∃ rows, index st = Some rows ∧ length rows = length (store_metadata st).
Proof.
  unfold faiss_build. simpl. intros [= <-]. simpl.
  eexists. split; [done|]. by rewrite !length_fmap.
Qed.

Lemma load_invariant st0 fs st :
  faiss_load st0 fs = Ok st →
  ∃ rows, index st = Some rows ∧ length rows = length (store_metadata st).
Proof.
  unfold faiss_load. intros Hl.
  destruct (fs !! faiss_path (persist_dir st0)) as [[rows|?|?]|];
    destruct (fs !! meta_path (persist_dir st0)) as [[?|recs|?]|]; try done.
  destruct (Nat.eqb_spec (length rows) (length recs)) as [Hlen|]; [|done].
  simplify_eq. simpl. by exists rows.
Qed.

Lemma ready_invariant st :
  after_build_or_load embed st →
  ∃ rows, index st = Some rows ∧ length rows = length (store_metadata st).
Proof.
  intros [(st0 & docs & fs & Hb)|(st0 & fs & Hl)].
  - by eapply build_invariant.
  - by eapply load_invariant.
Qed.

End StoreFacts.

(** ** Vector store: query, round trip and load *)

Section QueryFacts.
Variable embed : string → string → list Z.
Variable dist : list Z → list Z → Z.

Lemma score_rows_rows q rows : (score_rows dist q rows).*1 = seq 0 (length rows).
Proof.
  unfold score_rows. rewrite fmap_imap.
  rewrite (imap_ext _ (λ i _, i)); [|done].
  by rewrite imap_seq_0, list_fmap_id.
Qed.

(** C5: on a store left by a build or a load, and for [0 <= top_k], the
    query returns; each result pairs the metadata of an index row with the
    distance of that row to the embedded query; there are at most [top_k]
    results; they come in non-decreasing distance, and of two results at
    the same distance the one of the earlier row comes first; and when
    [top_k] is at least the number of rows, every row is returned exactly
    once. *)
Theorem query_top_k_ranked st text top_k :
  after_build_or_load embed st →
  0 ≤ top_k →
  ∃ rows ranked results,
    index st = Some rows ∧
    query_rows embed dist st text top_k = Ok ranked ∧
    faiss_query embed dist st text top_k = Ok results ∧
    Forall2 (λ r res, ∃ v m,
               rows !! r.1 = Some v ∧ store_metadata st !! r.1 = Some m ∧
               r.2 = dist (embed (embedding_model st) text) v ∧
               res = {| metadata := Some m; distance := r.2 |})
            ranked results ∧
    Z.of_nat (length results) ≤ top_k ∧
    StronglySorted ranks_before ranked ∧
    StronglySorted (λ a b, distance a ≤ distance b) results ∧
    (Z.of_nat (length rows) ≤ top_k →
       length results = length rows ∧ ranked.*1 ≡ₚ seq 0 (length rows)).
Proof.
  intros Hready Hk.
  destruct (ready_invariant embed st Hready) as (rows & Hidx & Hlen).
  set (q := embed (embedding_model st) text).
  set (ranked := take (Z.to_nat top_k) (rank_rows (score_rows dist q rows))).
  assert (query_rows embed dist st text top_k = Ok ranked) as Hq.
  { unfold query_rows. by rewrite Hidx. }
  assert (StronglySorted ranks_before ranked) as Hsorted.
  { apply StronglySorted_take, rank_rows_sorted, score_rows_increasing. }
  eexists rows, ranked, _. split_and!; [done|done| | | |done| |].
  - unfold faiss_query. by rewrite Hq.
  - apply Forall2_fmap_r, Forall_Forall2_diag, Forall_forall.
    intros [i d] Hin. simpl.
    apply subseteq_take in Hin. rewrite rank_rows_perm in Hin.
    apply score_rows_lookup in Hin as (v & Hv & ->).
    destruct (lookup_lt_is_Some_2 (store_metadata st) i) as [m Hm].
    { rewrite <-Hlen. by eapply lookup_lt_Some. }
    exists v, m. by rewrite Hm.
  - rewrite length_fmap. unfold ranked. rewrite length_take. lia.
  - eapply StronglySorted_fmap; [|exact Hsorted].
    intros x y. unfold ranks_before. simpl. lia.
  - intros Hall. rewrite length_fmap.
    assert (ranked = rank_rows (score_rows dist q rows)) as ->.
    { unfold ranked. apply take_ge.
      rewrite rank_rows_perm. unfold score_rows. rewrite length_imap. lia. }
    split.
    + rewrite rank_rows_perm. unfold score_rows. by rewrite length_imap.
    + by rewrite rank_rows_perm, score_rows_rows.
Qed.

(** C6: building a store from any documents, which persists it, and then
    loading it back into a store object of the same directory and embedding
    model gives the built store again, so the two answer every query with
    the same results in the same order. *)
Theorem build_load_round_trip st0 docs fs fresh text top_k :
  persist_dir fresh = persist_dir st0 →
  embedding_model fresh = embedding_model st0 →
  ∃ built,
    (faiss_build embed st0 docs fs).1 = Ok built ∧
    faiss_load fresh (faiss_build embed st0 docs fs).2 = Ok built ∧
    (∀ loaded, faiss_load fresh (faiss_build embed st0 docs fs).2 = Ok loaded →
       faiss_query embed dist loaded text top_k =
       faiss_query embed dist built text top_k).
Proof.
  intros Hdir Hmodel. unfold faiss_build. cbn [fst snd].
  eexists. split; [done|].
  match goal with |- ?l = Ok ?b ∧ _ => assert (l = Ok b) as Hload end.
  { unfold faiss_load. rewrite Hdir, Hmodel.
    rewrite lookup_insert_ne by (symmetry; apply faiss_paths_differ).
    by rewrite !lookup_insert_eq, !length_fmap, Nat.eqb_refl. }
  split; [exact Hload|].
  intros loaded Hl. rewrite Hload in Hl. by simplify_eq.
Qed.

(** C7: [load] raises whenever the index file or the metadata file is
    missing, and whenever both are there with different row counts; when it
    returns, the store holds exactly the rows of the index file and the
    records of the metadata file. *)
Theorem load_fails_or_reads_all self fs :
  ((fs !! faiss_path (persist_dir self) = None ∨
    fs !! meta_path (persist_dir self) = None ∨
    (∃ rows records,
       fs !! faiss_path (persist_dir self) = Some (IndexFile rows) ∧
       fs !! meta_path (persist_dir self) = Some (MetadataFile records) ∧
       length rows ≠ length records)) →
   ∃ e, faiss_load self fs = Raise e) ∧
  (∀ st, faiss_load self fs = Ok st →
     ∃ rows,
       index st = Some rows ∧
       fs !! faiss_path (persist_dir self) = Some (IndexFile rows) ∧
       fs !! meta_path (persist_dir self) = Some (MetadataFile (store_metadata st)) ∧
       length rows = length (store_metadata st)).
Proof.
  unfold faiss_load. split.
  - intros [Hi|[Hm|(rows & records & Hi & Hm & Hne)]].
    + rewrite Hi. by eexists.
    + rewrite Hm. destruct (fs !! faiss_path (persist_dir self)) as [[?|?|?]|];
        by eexists.
    + rewrite Hi, Hm.
      destruct (Nat.eqb_spec (length rows) (length records)); [done|by eexists].
  - intros st Hl.
    destruct (fs !! faiss_path (persist_dir self)) as [[rows|?|?]|];
      destruct (fs !! meta_path (persist_dir self)) as [[?|recs|?]|]; try done.
    destruct (Nat.eqb_spec (length rows) (length recs)) as [Hlen|]; [|done].
    simplify_eq. simpl. by exists rows.
Qed.

End QueryFacts.

(** ** Search facade *)

Lemma join_length_ge sep x y l :
  (String.length sep ≤ String.length (join sep (x :: y :: l)))%nat.
Proof.
  change (join sep (x :: y :: l)) with (x +:+ sep +:+ join sep (y :: l)).
  rewrite !append_length. lia.
Qed.

Lemma join_empty_iff sep l :
  (0 < String.length sep)%nat →
  join sep l = "" ↔ l = [] ∨ l = [""].
Proof.
  intros Hsep. split.
  - destruct l as [|x [|y l]]; [by left| |].
    + simpl. intros ->. by right.
    + intros Hj. pose proof (join_length_ge sep x y l) as Hlen.
      rewrite Hj in Hlen. simpl in Hlen. lia.
  - by intros [->| ->].
Qed.

Lemma sep_nonempty : (0 < String.length (nl +:+ nl))%nat.
Proof. compute. lia. Qed.

Lemma length_zero_empty s : (String.length s =? 0)%nat = true ↔ s = "".
Proof. destruct s; simpl; split; done. Qed.

Lemma result_texts_app l1 l2 :
  result_texts (l1 ++ l2) = result_texts l1 ++ result_texts l2.
Proof. unfold result_texts. by rewrite filter_app, fmap_app. Qed.

Lemma result_texts_cons r l :
  result_texts (r :: l) =
    (if truthy (metadata r) then [result_text r] else []) ++ result_texts l.
Proof.
  unfold result_texts. rewrite filter_cons.
  destruct (truthy (metadata r)); by case_decide.
Qed.

Ltac run_m :=
  unfold mbind, M_bind, mret, M_ret, bind, ret, emit, lift, get_files,
    put_files, path_exists; cbn [fst snd files trace].

Section FacadeFacts.
Context {Store : Type} `{!VectorStoreApi Store}.
Context {Llm : Type} `{!ChatApi Llm}.

(** The world after the query was sent to the store. *)
Local Abbreviation queried w text top_k :=
  {| files := files w; trace := trace w ++ [EvQuery text top_k] |}.

(** The world after the prompt was sent to the chat client. *)
Local Abbreviation invoked w prompt :=
  {| files := files w; trace := trace w ++ [EvInvoke [prompt]] |}.

Lemma summarize_run (self : RAGSearch Store Llm) text results w :
  summarize self text results w =
    let context := join (nl +:+ nl) (result_texts results) in
    if (String.length context =? 0)%nat
    then (Ok NO_RESULTS, w)
    else (invoke (llm self) [make_prompt text context],
          invoked w (make_prompt text context)).
Proof.
  unfold summarize. cbv zeta.
  destruct (String.length _ =? 0)%nat; [done|].
  run_m. done.
Qed.

Lemma search_run (self : RAGSearch Store Llm) text top_k results w :
  query (vectorstore self) text top_k = Ok results →
  search_and_summarize self text top_k w =
    summarize self text results (queried w text top_k).
Proof. intros Hq. unfold search_and_summarize. run_m. by rewrite Hq. Qed.

Lemma search_empty_context (self : RAGSearch Store Llm) text top_k results w :
  query (vectorstore self) text top_k = Ok results →
  join (nl +:+ nl) (result_texts results) = "" →
  search_and_summarize self text top_k w =
    (Ok NO_RESULTS, queried w text top_k).
Proof.
  intros Hq Hc. rewrite (search_run _ _ _ _ _ Hq), summarize_run. cbv zeta.
  by rewrite Hc.
Qed.

Lemma search_some_context (self : RAGSearch Store Llm) text top_k results w :
  query (vectorstore self) text top_k = Ok results →
  join (nl +:+ nl) (result_texts results) ≠ "" →
  search_and_summarize self text top_k w =
    (invoke (llm self)
       [make_prompt text (join (nl +:+ nl) (result_texts results))],
     invoked (queried w text top_k)
       (make_prompt text (join (nl +:+ nl) (result_texts results)))).
Proof.
  intros Hq Hc. rewrite (search_run _ _ _ _ _ Hq), summarize_run. cbv zeta.
  destruct (String.length _ =? 0)%nat eqn:Hlen; [|done].
  by apply length_zero_empty in Hlen.
Qed.

End FacadeFacts.

Section SummarizeFacts.
Context {Store : Type} `{!VectorStoreApi Store}.
Context {Llm : Type} `{!ChatApi Llm}.

Local Abbreviation queried w text top_k :=
  {| files := files w; trace := trace w ++ [EvQuery text top_k] |}.
Local Abbreviation invoked w prompt :=
  {| files := files w; trace := trace w ++ [EvInvoke [prompt]] |}.
Local Abbreviation sep := (nl +:+ nl).

(** C1, amended: when the texts kept from the results are none at all, or
    one empty text, the fixed message is returned and the chat client is not
    called; in every other case the client is called once, on the prompt
    made of the query and the joined texts, and what the call gives (its
    response text, or its exception) is what the method gives. *)
Theorem summary_or_no_results (self : RAGSearch Store Llm) text top_k results w :
  query (vectorstore self) text top_k = Ok results →
  let texts := result_texts results in
  ((texts = [] ∨ texts = [""]) →
     search_and_summarize self text top_k w =
       (Ok NO_RESULTS, queried w text top_k)) ∧
  (texts ≠ [] → texts ≠ [""] →
     search_and_summarize self text top_k w =
       (invoke (llm self) [make_prompt text (join sep texts)],
        invoked (queried w text top_k) (make_prompt text (join sep texts)))).
Proof.
  intros Hq texts. split.
  - intros Ht. apply (search_empty_context _ _ _ _ _ Hq).
    by apply join_empty_iff; [apply sep_nonempty|].
  - intros Hne Hne'. apply (search_some_context _ _ _ _ _ Hq).
    rewrite join_empty_iff by apply sep_nonempty. by intros [?|?].
Qed.

(** C9: a result without metadata, or with an empty metadata mapping, adds
    nothing to the texts; a result whose non-empty mapping has no [text]
    key adds the empty string; the fixed message is returned, the chat
    client not being called, exactly when the texts are none or one empty
    string; and with two or more texts, even all empty, the joined context
    is not empty and the chat client is called on it. *)
Theorem context_rule (self : RAGSearch Store Llm) text top_k results w :
  query (vectorstore self) text top_k = Ok results →
  let texts := result_texts results in
  (∀ l1 r l2, results = l1 ++ r :: l2 →
     ((metadata r = None ∨ metadata r = Some ∅) →
        texts = result_texts l1 ++ result_texts l2) ∧
     (∀ m, metadata r = Some m → m ≠ ∅ → m !! "text" = None →
        texts = result_texts l1 ++ "" :: result_texts l2)) ∧
  (search_and_summarize self text top_k w =
     (Ok NO_RESULTS, queried w text top_k)
   ↔ texts = [] ∨ texts = [""]) ∧
  ((2 ≤ length texts)%nat →
     join sep texts ≠ "" ∧
     search_and_summarize self text top_k w =
       (invoke (llm self) [make_prompt text (join sep texts)],
        invoked (queried w text top_k) (make_prompt text (join sep texts)))).
Proof.
  intros Hq texts. split_and!.
  - intros l1 r l2 ->. subst texts.
    rewrite result_texts_app, result_texts_cons. split.
    + by intros [-> | ->].
    + intros m Hm Hne Ht. unfold result_text. rewrite Hm. simpl.
      rewrite bool_decide_true by done. by rewrite Ht.
  - split.
    + intros Hrun. apply (join_empty_iff sep); [apply sep_nonempty|].
      destruct (decide (join sep texts = "")) as [|Hne]; [done|].
      rewrite (search_some_context _ _ _ _ _ Hq Hne) in Hrun.
      injection Hrun as _ Htr.
      apply (f_equal length) in Htr. rewrite !length_app in Htr.
      simpl in Htr. lia.
    + intros Ht. apply (search_empty_context _ _ _ _ _ Hq).
      by apply join_empty_iff; [apply sep_nonempty|].
  - intros Hlen.
    assert (join sep texts ≠ "") as Hne.
    { rewrite join_empty_iff by apply sep_nonempty.
      intros [Ht|Ht]; rewrite Ht in Hlen; simpl in Hlen; lia. }
    split; [done|]. by apply search_some_context.
Qed.

End SummarizeFacts.

Section ConstructionFacts.
Context {Store : Type} `{!VectorStoreApi Store}.
Context {Llm : Type} `{!ChatApi Llm}.
Variable run_loader : LoaderClass → string → Result (list Document).
Variable as_completed : list string → list string.
Variable log_order : list string → list string.
Variable rglob : string → list DirEntry.
Variable module_dir : string.
Variable normpath : string → string.
Variable getenv : string → option string.

Local Abbreviation init :=
  (RAGSearch_init (Store:=Store) (Llm:=Llm) run_loader as_completed log_order
     rglob module_dir normpath getenv).

Lemma default_pool_returns data_dir :
  ∃ docs lg,
    load_all_documents run_loader as_completed log_order rglob data_dir 4
      = (Ok docs, lg).
Proof. unfold load_all_documents, load_all_parallel. simpl. by eexists _, _. Qed.

(** C2: construction looks for the index file and the metadata file in the
    persistence directory.  When both are there it calls [load] on the
    store and nothing else: no document is ingested, no file is written.
    When one of them is missing it ingests the data directory and calls
    [build_from_documents] on what the ingestion returned, and does not
    call [load]. *)
Theorem construction_builds_or_loads persist_dir embedding_model llm_model w :
  let dir :=
    match persist_dir with
    | Some d => d
    | None => normpath (path_join (path_join module_dir "..") "faiss_store")
    end in
  let data_dir := normpath (path_join (path_join module_dir "..") "data") in
  let vs := FaissVectorStore dir embedding_model in
  let out := init persist_dir embedding_model llm_model w in
  if bool_decide (is_Some (files w !! path_join dir "faiss.index"))
     && bool_decide (is_Some (files w !! path_join dir "metadata.pkl"))
  then
    trace out.2 = trace w ++ [EvLoad] ∧
    files out.2 = files w ∧
    out.1 =
      match load vs (files w) with
      | Ok vs' =>
          match ChatGroq (getenv "API_KEY") llm_model with
          | Ok client => Ok {| vectorstore := vs'; llm := client |}
          | Raise e => Raise e
          end
      | Raise e => Raise e
      end
  else
    ∃ docs lg,
      load_all_documents run_loader as_completed log_order rglob data_dir 4
        = (Ok docs, lg) ∧
      trace out.2 =
        trace w ++ [EvLoadAllDocuments data_dir] ++ (EvLog <$> lg) ++ [EvBuild docs] ∧
      files out.2 = (build_from_documents vs docs (files w)).2 ∧
      out.1 =
        match (build_from_documents vs docs (files w)).1 with
        | Ok vs' =>
            match ChatGroq (getenv "API_KEY") llm_model with
            | Ok client => Ok {| vectorstore := vs'; llm := client |}
            | Raise e => Raise e
            end
        | Raise e => Raise e
        end.
Proof.
  intros dir data_dir vs out. subst out. unfold RAGSearch_init.
  fold dir. fold data_dir. fold vs. run_m.
  destruct (bool_decide _ && bool_decide _); cbn [negb].
  - unfold call_load. run_m.
    destruct (load vs (files w)) as [vs'|e]; [|done].
    by destruct (ChatGroq (getenv "API_KEY") llm_model).
  - destruct (default_pool_returns data_dir) as (docs & lg & Hload).
    exists docs, lg. split; [done|].
    unfold call_load_all_documents, call_build. rewrite Hload. run_m.
    destruct (build_from_documents vs docs (files w)) as [[vs'|e] fs'];
      run_m; rewrite <-?(assoc_L (++)); [|done].
    by destruct (ChatGroq (getenv "API_KEY") llm_model).
Qed.

End ConstructionFacts.

(** ** The properties on the sample deployment *)

Lemma sample_collected :
  (_collect_files Sample.rglob Sample.loader).1 =
    ["/data/a.txt"; "/data/B.PDF"; "/data/sub/c.json"].
Proof. reflexivity. Qed.

(** C3 on the sample directory: two parseable files, one corrupt file. *)
Lemma ingestion_survives_corrupt_files_witness :
  0 < max_workers Sample.loader ∧
  (∀ l, Sample.as_completed l ≡ₚ l) ∧
  ∃ documents log,
    load_all_parallel Sample.run_loader Sample.as_completed Sample.log_order
      Sample.rglob Sample.loader = (Ok documents, log) ∧
    length documents = 3%nat ∧
    length (filter (λ r, is_error r = true) log) = 1%nat.
Proof.
  assert (∀ l, Sample.as_completed l ≡ₚ l) as Hperm
    by (intros l; apply reverse_Permutation).
  split; [reflexivity|]. split; [exact Hperm|].
  destruct (ingestion_survives_corrupt_files Sample.run_loader
              Sample.as_completed Sample.log_order Sample.rglob Sample.loader
              eq_refl Hperm (λ l, reflexivity l))
    as (documents & log & Hrun & Hdocs & _ & Herr).
  exists documents, log. split; [exact Hrun|]. split.
  - rewrite Hdocs. reflexivity.
  - rewrite Herr. reflexivity.
Defined.

(** C4 on the sample directory: a PDF file and a Markdown file. *)
Lemma extension_routing_witness :
  _load_single_file Sample.run_loader "/data/B.PDF" =
    ([Sample.doc "page one" "/data/B.PDF"; Sample.doc "page two" "/data/B.PDF"],
     [LogLoaded 2 "B.PDF"]) ∧
  ("/data/notes.md" ∉ (_collect_files Sample.rglob Sample.loader).1) ∧
  _load_single_file Sample.run_loader "/data/notes.md" =
    ([], [LogNoLoader ".md" "/data/notes.md"]).
Proof.
  split.
  - destruct (extension_routing Sample.run_loader Sample.rglob Sample.loader
                "/data/B.PDF") as [Hrouted _].
    destruct (Hrouted ".pdf" PyPDFLoader) as [_ Hload]; [|reflexivity|exact Hload].
    unfold designated. apply list_elem_of_here.
  - destruct (extension_routing Sample.run_loader Sample.rglob Sample.loader
                "/data/notes.md") as [_ Hskipped].
    destruct Hskipped as (Hnot & Hload & _); [|split; [exact Hnot|exact Hload]].
    intros cls Hin. apply designated_lookup in Hin. discriminate Hin.
Defined.

(** C10 on the sample directory: [B.PDF] goes where [b.pdf] goes. *)
Lemma extension_case_insensitive_witness :
  suffix "/data/B.PDF" = ".PDF" ∧
  ("/data/B.PDF" ∈ (_collect_files Sample.rglob Sample.loader).1) ∧
  LOADER_MAP !! lower (suffix "/data/B.PDF") = Some PyPDFLoader ∧
  LOADER_MAP !! lower (suffix "/data/b.pdf") = Some PyPDFLoader.
Proof.
  split; [reflexivity|].
  destruct (extension_case_insensitive Sample.run_loader Sample.rglob
              Sample.loader
              {| entry_path := "/data/B.PDF"; entry_is_file := true |}
              ".pdf" PyPDFLoader)
    as (Hin & Hcls & Hlow & _).
  - unfold Sample.rglob, Sample.loader. simpl.
    apply list_elem_of_further, list_elem_of_here.
  - reflexivity.
  - unfold designated. apply list_elem_of_here.
  - reflexivity.
  - split; [exact Hin|]. split; [exact Hcls|exact Hlow].
Defined.

(** C8 on the sample directory. *)
Lemma lazy_sequential_and_equivalent_witness :
  (load_lazy Sample.run_loader Sample.rglob Sample.loader 2).1 =
    [Sample.doc "alpha" "/data/a.txt"; Sample.doc "page one" "/data/B.PDF"] ∧
  load_lazy Sample.run_loader Sample.rglob Sample.loader 4 =
    ([Sample.doc "alpha" "/data/a.txt"; Sample.doc "page one" "/data/B.PDF";
      Sample.doc "page two" "/data/B.PDF"],
     [LogFound 3; LogLoaded 1 "a.txt"; LogLoaded 2 "B.PDF";
      LogFailed "/data/sub/c.json" (Exception "missing argument: jq_schema")]) ∧
  ∃ documents log,
    load_all_parallel Sample.run_loader Sample.as_completed Sample.log_order
      Sample.rglob Sample.loader = (Ok documents, log) ∧
    documents ≡ₚ
      [Sample.doc "alpha" "/data/a.txt"; Sample.doc "page one" "/data/B.PDF";
       Sample.doc "page two" "/data/B.PDF"].
Proof.
  destruct (lazy_sequential_and_equivalent Sample.run_loader Sample.rglob
              Sample.loader)
    as (Htake & Hall & Heager).
  split; [exact (Htake 2%nat)|]. split.
  - apply (Hall 4%nat). vm_compute. lia.
  - exact (Heager Sample.as_completed Sample.log_order eq_refl
             (λ l, reverse_Permutation l)).
Defined.

Lemma sample_built :
  (faiss_build Sample.embed Sample.fresh Sample.documents ∅).1 = Ok Sample.built.
Proof. reflexivity. Qed.

Lemma sample_textless_loaded :
  faiss_load Sample.fresh Sample.textless_files = Ok Sample.textless.
Proof. reflexivity. Qed.

(** C5 on the sample store: four rows, the query at distance 0 of rows 0
    and 3, at distance 9 of rows 1 and 2. *)
Lemma query_top_k_ranked_witness :
  after_build_or_load Sample.embed Sample.built ∧
  query_rows Sample.embed Sample.dist Sample.built "gamma" 3 =
    Ok [(0%nat, 0); (3%nat, 0); (1%nat, 9)] ∧
  query_rows Sample.embed Sample.dist Sample.built "gamma" 10 =
    Ok [(0%nat, 0); (3%nat, 0); (1%nat, 9); (2%nat, 9)] ∧
  ∃ results,
    faiss_query Sample.embed Sample.dist Sample.built "gamma" 3 = Ok results ∧
    Z.of_nat (length results) ≤ 3 ∧
    StronglySorted (λ a b, distance a ≤ distance b) results.
Proof.
  assert (after_build_or_load Sample.embed Sample.built) as Hready.
  { left. exists Sample.fresh, Sample.documents, ∅. exact sample_built. }
  split; [exact Hready|]. split; [reflexivity|]. split; [reflexivity|].
  destruct (query_top_k_ranked Sample.embed Sample.dist Sample.built "gamma" 3
              Hready ltac:(lia))
    as (rows & ranked & results & _ & _ & Hq & _ & Hlen & _ & Hsorted & _).
  exists results. split; [exact Hq|]. split; [exact Hlen|exact Hsorted].
Defined.

(** C6 on the sample documents. *)
Lemma build_load_round_trip_witness :
  faiss_load Sample.fresh
    (faiss_build Sample.embed Sample.fresh Sample.documents ∅).2 = Ok Sample.built ∧
  ∀ loaded,
    faiss_load Sample.fresh
      (faiss_build Sample.embed Sample.fresh Sample.documents ∅).2 = Ok loaded →
    faiss_query Sample.embed Sample.dist loaded "gamma" 3 =
    faiss_query Sample.embed Sample.dist Sample.built "gamma" 3.
Proof.
  destruct (build_load_round_trip Sample.embed Sample.dist Sample.fresh
              Sample.documents ∅ Sample.fresh "gamma" 3 eq_refl eq_refl)
    as (built & Hbuilt & Hload & Hsame).
  assert (built = Sample.built) as ->.
  { rewrite sample_built in Hbuilt. by injection Hbuilt. }
  split; [exact Hload|exact Hsame].
Defined.

(** C7 on an empty directory and on the sample files. *)
Lemma load_fails_or_reads_all_witness :
  (∃ e, faiss_load Sample.fresh ∅ = Raise e) ∧
  (∃ rows,
     index Sample.textless = Some rows ∧
     Sample.textless_files !! faiss_path "faiss_store" = Some (IndexFile rows)).
Proof.
  split.
  - destruct (load_fails_or_reads_all Sample.fresh ∅) as [Hfail _].
    apply Hfail. left. reflexivity.
  - destruct (load_fails_or_reads_all Sample.fresh Sample.textless_files)
      as [_ Hread].
    destruct (Hread Sample.textless sample_textless_loaded)
      as (rows & Hidx & Hfile & _).
    exists rows. split; [exact Hidx|exact Hfile].
Defined.

(** C1 as stated fails: the store returns two results, none of which has a
    non-empty text, and the method returns the chat client's response, not
    the fixed message. *)
Lemma no_results_message_counterexample :
  ∃ results,
    query (VectorStoreApi:=Sample.store_api)
      (vectorstore Sample.textless_search) "q" 2 = Ok results ∧
    length results = 2%nat ∧
    Forall (λ t, t = "") (result_texts results) ∧
    (search_and_summarize (VectorStoreApi0:=Sample.store_api)
       (ChatApi0:=Sample.chat_api) Sample.textless_search "q" 2 Sample.world).1
      = Ok "A summary." ∧
    Ok "A summary." ≠ Ok NO_RESULTS.
Proof.
  eexists. split; [reflexivity|]. split; [reflexivity|].
  split; [by repeat constructor|]. split; [reflexivity|]. discriminate.
Qed.

(** C1, amended, on the sample stores. *)
Lemma summary_or_no_results_witness :
  (search_and_summarize (VectorStoreApi0:=Sample.store_api)
     (ChatApi0:=Sample.chat_api) Sample.built_search "gamma" 1
     {| files := ∅; trace := [] |}).1 = Ok "A summary." ∧
  search_and_summarize (VectorStoreApi0:=Sample.store_api)
     (ChatApi0:=Sample.chat_api) Sample.textless_search "q" 1 Sample.world
    = (Ok NO_RESULTS,
       {| files := Sample.textless_files; trace := [EvQuery "q" 1] |}).
Proof.
  split.
  - destruct (summary_or_no_results (VectorStoreApi0:=Sample.store_api)
                (ChatApi0:=Sample.chat_api) Sample.built_search "gamma" 1
                [ {| metadata := Some (record_metadata (Sample.doc "alpha" "/data/a.txt"));
                     distance := 0 |} ]
                {| files := ∅; trace := [] |} eq_refl) as [_ Hcall].
    rewrite Hcall; [reflexivity|discriminate|discriminate].
  - destruct (summary_or_no_results (VectorStoreApi0:=Sample.store_api)
                (ChatApi0:=Sample.chat_api) Sample.textless_search "q" 1
                [ {| metadata := Some {[ "source" := "/data/a.txt" ]};
                     distance := 0 |} ]
                Sample.world eq_refl) as [Hnone _].
    apply Hnone. right. reflexivity.
Defined.

(** C9 on the sample store without texts: two results, two empty texts, a
    context of two newlines, and the chat client is called. *)
Lemma context_rule_witness :
  ∃ results,
    query (VectorStoreApi:=Sample.store_api)
      (vectorstore Sample.textless_search) "q" 2 = Ok results ∧
    result_texts results = [""; ""] ∧
    join (nl +:+ nl) (result_texts results) = nl +:+ nl ∧
    search_and_summarize (VectorStoreApi0:=Sample.store_api)
      (ChatApi0:=Sample.chat_api) Sample.textless_search "q" 2 Sample.world
    = (Ok "A summary.",
       {| files := Sample.textless_files;
          trace := [EvQuery "q" 2;
                    EvInvoke [make_prompt "q" (nl +:+ nl)]] |}).
Proof.
  eexists. split; [reflexivity|]. split; [reflexivity|]. split; [reflexivity|].
  destruct (context_rule (VectorStoreApi0:=Sample.store_api)
              (ChatApi0:=Sample.chat_api) Sample.textless_search "q" 2
              [ {| metadata := Some {[ "source" := "/data/a.txt" ]}; distance := 0 |};
                {| metadata := Some {[ "source" := "/data/b.txt" ]}; distance := 1 |} ]
              Sample.world eq_refl) as (_ & _ & Hcall).
  destruct Hcall as [_ Hrun]; [vm_compute; lia|].
  rewrite Hrun. reflexivity.
Defined.

(** * Further properties of the code *)

(** ** Collection *)

Section CollectionFacts.
Variable rglob : string → list DirEntry.

(** X1: the collected files are exactly the paths of the regular files
    below the data directory whose lowercased suffix is supported; they
    come in enumeration order; and the one log record counts them. *)
Theorem collect_files_exact self :
  let files := (_collect_files rglob self).1 in
  (∀ p, p ∈ files ↔
     ∃ item, item ∈ rglob (data_path self) ∧ entry_path item = p ∧
       entry_is_file item = true ∧
       lower (suffix p) ∈ supported_extensions) ∧
  files `sublist_of` (entry_path <$> rglob (data_path self)) ∧
  (_collect_files rglob self).2 = [LogFound (length files)] ∧
  (length files ≤ length (rglob (data_path self)))%nat.
Proof.
  intros files. subst files. unfold _collect_files. cbn [fst snd].
  split_and!.
  - intros p. rewrite list_elem_of_fmap. split.
    + intros (item & -> & Hin). apply list_elem_of_filter in Hin as [Hs Hin].
      unfold is_supported in Hs. apply andb_true_iff in Hs as [Hf Hs].
      apply bool_decide_eq_true in Hs. by exists item.
    + intros (item & Hin & <- & Hf & Hs). exists item. split; [done|].
      apply list_elem_of_filter. split; [|done].
      unfold is_supported. rewrite Hf. by apply bool_decide_eq_true.
  - apply fmap_sublist, sublist_filter.
  - done.
  - rewrite length_fmap. apply length_filter.
Qed.

End CollectionFacts.

(** ** Suffixes *)

Lemma append_cons c (s t : string) : String c s +:+ t = String c (s +:+ t).
Proof. reflexivity. Qed.

Lemma append_assoc_r (s t u : string) : (s +:+ t) +:+ u = s +:+ t +:+ u.
Proof.
  induction s as [|c s IH]; [done|]. by rewrite !append_cons, IH.
Qed.

Lemma rfind_app c (s t : string) :
  rfind c (s +:+ t) =
    match rfind c t with
    | Some i => Some (String.length s + i)%nat
    | None => rfind c s
    end.
Proof.
  induction s as [|a s IH].
  - change ("" +:+ t) with t. simpl. by destruct (rfind c t).
  - rewrite append_cons. simpl. rewrite IH. by destruct (rfind c t).
Qed.

Lemma substring_all (t : string) : String.substring 0 (String.length t) t = t.
Proof. induction t as [|a t IH]; simpl; [done|]. by rewrite IH. Qed.

Lemma substring_app_r (s t : string) :
  String.substring (String.length s) (String.length t) (s +:+ t) = t.
Proof.
  induction s as [|a s IH]; [apply substring_all|].
  rewrite append_cons. simpl. exact IH.
Qed.

Lemma name_of_child dir nm :
  rfind "/" nm = None → name (dir +:+ "/" +:+ nm) = nm.
Proof.
  intros Hnm. unfold name.
  rewrite rfind_app. change ("/" +:+ nm) with (String "/" nm).
  cbn [rfind]. rewrite Hnm. simpl Ascii.eqb. cbv iota.
  rewrite Nat.add_0_r.
  change (String "/" nm) with ("/" +:+ nm). rewrite <-append_assoc_r.
  replace (S (String.length dir)) with (String.length (dir +:+ "/"))
    by (rewrite append_length; simpl; lia).
  replace (String.length ((dir +:+ "/") +:+ nm) - String.length (dir +:+ "/"))%nat
    with (String.length nm) by (rewrite append_length; lia).
  apply substring_app_r.
Qed.

Lemma suffix_of_name stem e :
  stem ≠ "" → e ≠ "" → rfind "." e = None →
  match rfind "." (stem +:+ "." +:+ e) with
  | Some i =>
      if ((0 <? i) && (i <? String.length (stem +:+ "." +:+ e) - 1))%nat
      then String.substring i (String.length (stem +:+ "." +:+ e) - i)
             (stem +:+ "." +:+ e)
      else ""
  | None => ""
  end = "." +:+ e.
Proof.
  intros Hstem He Hdot.
  rewrite rfind_app. change ("." +:+ e) with (String "." e).
  cbn [rfind]. rewrite Hdot. simpl Ascii.eqb. cbv iota.
  rewrite Nat.add_0_r, append_length. cbn [String.length].
  assert (0 < String.length stem)%nat by (destruct stem; simpl; [done|lia]).
  assert (0 < String.length e)%nat by (destruct e; simpl; [done|lia]).
  destruct (Nat.ltb_spec 0 (String.length stem)); [|lia].
  destruct (Nat.ltb_spec (String.length stem)
              (String.length stem + S (String.length e) - 1)); [|lia].
  cbn [andb].
  replace (String.length stem + S (String.length e) - String.length stem)%nat
    with (String.length (String "." e)) by (simpl; lia).
  apply substring_app_r.
Qed.

Section SuffixFacts.
Variable run_loader : LoaderClass → string → Result (list Document).
Variable rglob : string → list DirEntry.

(** X2: the file name alone decides, and of the name its last dotted
    component.  For a file [dir/stem.e], with a non-empty stem, a non-empty
    [e] without a dot, and no slash in either, the suffix is [.e] whatever
    dots the directory or the stem hold, and the file is handed to the
    parser of [.e] lowercased, or to none when that is no supported
    extension. *)
Theorem last_suffix_decides dir stem e :
  stem ≠ "" → e ≠ "" →
  rfind "/" stem = None → rfind "/" e = None → rfind "." e = None →
  let p := dir +:+ "/" +:+ stem +:+ "." +:+ e in
  name p = stem +:+ "." +:+ e ∧
  suffix p = "." +:+ e ∧
  _load_single_file run_loader p =
    match LOADER_MAP !! lower ("." +:+ e) with
    | None => ([], [LogNoLoader (lower ("." +:+ e)) p])
    | Some cls =>
        match run_loader cls p with
        | Ok docs => (docs, [LogLoaded (length docs) (stem +:+ "." +:+ e)])
        | Raise err => ([], [LogFailed p err])
        end
    end.
Proof.
  intros Hstem He Hs1 Hs2 Hdot p.
  assert (name p = stem +:+ "." +:+ e) as Hname.
  { apply name_of_child. rewrite rfind_app.
    change ("." +:+ e) with (String "." e). cbn [rfind]. by rewrite Hs2. }
  assert (suffix p = "." +:+ e) as Hsuf.
  { unfold suffix. rewrite Hname. by apply suffix_of_name. }
  split_and!; [done..|].
  unfold _load_single_file. by rewrite Hsuf, Hname.
Qed.

(** X3: a hidden file whose name is a dot followed by letters ([.json],
    [.txt], [.gitignore]) has no suffix: it is never collected, and loading
    it directly gives no record and the warning for the empty extension,
    also when its name is a supported extension. *)
Theorem bare_extension_name_skipped self dir e :
  rfind "/" e = None → rfind "." e = None →
  let p := dir +:+ "/" +:+ "." +:+ e in
  suffix p = "" ∧
  (p ∉ (_collect_files rglob self).1) ∧
  _load_single_file run_loader p = ([], [LogNoLoader "" p]).
Proof.
  intros Hs Hdot p.
  assert (suffix p = "") as Hsuf.
  { unfold suffix, p. rewrite name_of_child.
    - change ("." +:+ e) with (String "." e). cbn [rfind]. by rewrite Hdot.
    - change ("." +:+ e) with (String "." e). cbn [rfind]. by rewrite Hs. }
  split_and!; [done| |].
  - intros Hin. apply collected_supported in Hin. rewrite Hsuf in Hin.
    by vm_compute in Hin.
  - unfold _load_single_file. by rewrite Hsuf.
Qed.

End SuffixFacts.

(** ** Loading by type, empty directories and the log *)

Lemma filter_none {A} (P : A → Prop) `{!∀ x, Decision (P x)} (l : list A) :
  Forall (λ x, ¬ P x) l → filter P l = [].
Proof.
  induction 1 as [|x l Hx _ IH]; [done|]. by rewrite filter_cons_False.
Qed.

Section EagerFacts.
Variable run_loader : LoaderClass → string → Result (list Document).
Variable as_completed : list string → list string.
Variable log_order : list string → list string.
Variable rglob : string → list DirEntry.

Local Abbreviation docs_of := (λ f : string, (_load_single_file run_loader f).1).
Local Abbreviation log_of := (λ f : string, (_load_single_file run_loader f).2).
Local Abbreviation eager :=
  (load_all_parallel run_loader as_completed log_order rglob).
Local Abbreviation by_type :=
  (load_by_type run_loader as_completed log_order rglob).

Lemma load_all_parallel_run self :
  0 < max_workers self →
  eager self =
    (Ok (as_completed (_collect_files rglob self).1 ≫= docs_of),
     LogFound (length (_collect_files rglob self).1)
       :: (log_order (_collect_files rglob self).1 ≫= log_of)
       ++ [LogTotal (length (as_completed (_collect_files rglob self).1 ≫= docs_of))]).
Proof.
  intros Hw. unfold load_all_parallel, _collect_files. cbn [fst snd].
  by destruct (Z.leb_spec (max_workers self) 0) as [?|_]; [lia|].
Qed.

Lemma load_by_type_run self file_types :
  0 < max_workers self →
  let selected :=
    filter (λ f, lower (suffix f) ∈ file_types) (_collect_files rglob self).1 in
  by_type self file_types =
    (Ok (as_completed selected ≫= docs_of),
     LogCall (LogFound (length (_collect_files rglob self).1))
       :: LogLoading (length selected) file_types
       :: (LogCall <$> (log_order selected ≫= log_of))).
Proof.
  intros Hw. unfold load_by_type, _collect_files. cbn [fst snd].
  by destruct (Z.leb_spec (max_workers self) 0) as [?|_]; [lia|].
Qed.

(** X4: with a pool of positive size, [load_by_type] returns, up to order,
    the records of the collected files whose lowercased suffix is one of
    the given types, and so never a record that [load_all_parallel] would
    not return. *)
Theorem load_by_type_selects self file_types :
  0 < max_workers self →
  (∀ l, as_completed l ≡ₚ l) →
  ∃ documents log everything log',
    by_type self file_types = (Ok documents, log) ∧
    eager self = (Ok everything, log') ∧
    documents ≡ₚ
      filter (λ f, lower (suffix f) ∈ file_types) (_collect_files rglob self).1
        ≫= docs_of ∧
    documents ⊆+ everything.
Proof.
  intros Hw Hc. rewrite load_by_type_run, load_all_parallel_run by done.
  eexists _, _, _, _. split_and!; [done|done|by rewrite Hc|].
  rewrite !Hc. apply bind_submseteq, sublist_submseteq, sublist_filter.
Qed.

(** X5: the types are compared as given with the lowercased suffix.  When
    none of them is a supported extension spelled in lowercase with its dot
    ([.PDF], [pdf] and [*.pdf] are not), no file is selected: the result is
    empty, and the log says that 0 files are loaded. *)
Theorem load_by_type_matches_verbatim self file_types :
  0 < max_workers self →
  (∀ l, as_completed l ≡ₚ l) →
  (∀ l, log_order l ≡ₚ l) →
  (∀ t, t ∈ file_types → t ∉ supported_extensions) →
  by_type self file_types =
    (Ok [],
     [LogCall (LogFound (length (_collect_files rglob self).1));
      LogLoading 0 file_types]).
Proof.
  intros Hw Hc Hl Hno. rewrite load_by_type_run by done. cbv zeta.
  assert (filter (λ f, lower (suffix f) ∈ file_types)
            (_collect_files rglob self).1 = []) as ->.
  { apply filter_none, Forall_forall. intros f Hf Hin.
    apply (Hno _ Hin). by apply (collected_supported rglob self). }
  assert (as_completed [] = []) as -> by (apply Permutation_nil_r, Hc).
  assert (log_order [] = []) as -> by (apply Permutation_nil_r, Hl).
  done.
Qed.

(** X6: when the given types include the six supported extensions,
    [load_by_type] returns what [load_all_parallel] returns, up to
    order. *)
Theorem load_by_type_all_types self file_types :
  0 < max_workers self →
  (∀ l, as_completed l ≡ₚ l) →
  (∀ ext, ext ∈ supported_extensions → ext ∈ file_types) →
  ∃ documents log everything log',
    by_type self file_types = (Ok documents, log) ∧
    eager self = (Ok everything, log') ∧
    documents ≡ₚ everything.
Proof.
  intros Hw Hc Hall. rewrite load_by_type_run, load_all_parallel_run by done.
  eexists _, _, _, _. split_and!; [done|done|]. rewrite !Hc.
  assert (filter (λ f, lower (suffix f) ∈ file_types)
            (_collect_files rglob self).1 = (_collect_files rglob self).1) as ->;
    [|done].
  pose proof (collected_all_supported rglob self) as Hsup.
  induction Hsup as [|f files Hf _ IH]; [done|].
  rewrite filter_cons_True by auto. by rewrite IH.
Qed.

(** X7: a data directory without any supported regular file (an empty or
    missing one, for instance) is no error: both eager paths return the
    empty list and the lazy path yields nothing, and the logs count 0
    files. *)
Theorem nothing_to_ingest self file_types (n : nat) :
  0 < max_workers self →
  (∀ l, as_completed l ≡ₚ l) →
  (∀ l, log_order l ≡ₚ l) →
  Forall (λ item, is_supported item = false) (rglob (data_path self)) →
  eager self = (Ok [], [LogFound 0; LogTotal 0]) ∧
  by_type self file_types =
    (Ok [], [LogCall (LogFound 0); LogLoading 0 file_types]) ∧
  load_lazy run_loader rglob self (S n) = ([], [LogFound 0]).
Proof.
  intros Hw Hc Hl Hnone.
  assert ((_collect_files rglob self).1 = []) as Hfiles.
  { unfold _collect_files. cbn [fst].
    rewrite filter_none; [done|].
    eapply Forall_impl; [exact Hnone|]. simpl. intros item ->. done. }
  assert (as_completed [] = []) as Hc0 by (apply Permutation_nil_r, Hc).
  assert (log_order [] = []) as Hl0 by (apply Permutation_nil_r, Hl).
  split_and!.
  - rewrite load_all_parallel_run by done. by rewrite Hfiles, Hc0, Hl0.
  - rewrite load_by_type_run by done. cbv zeta.
    by rewrite Hfiles, filter_nil, Hc0, Hl0.
  - unfold load_lazy. cbn [lazy_take lazy_next].
    change (_collect_files rglob self)
      with ((_collect_files rglob self).1,
            [LogFound (length (_collect_files rglob self).1)]).
    by rewrite Hfiles.
Qed.





End EagerFacts.

(** ** Laziness of the generator *)

Section LazinessFacts.
Variable run_loader : LoaderClass → string → Result (list Document).
Variable rglob : string → list DirEntry.

Local Abbreviation docs_of := (λ f : string, (_load_single_file run_loader f).1).
Local Abbreviation log_of := (λ f : string, (_load_single_file run_loader f).2).

Lemma bind_prefix_nil (files : list string) (j : nat) :
  files ≫= docs_of = [] → take j files ≫= docs_of = [].
Proof.
  intros Hnil. rewrite <-(take_drop j files), bind_app in Hnil.
  by apply app_eq_nil in Hnil as [? _].
Qed.

(** Advancing loads a prefix of the files: the files without a record it
    passes over, and the first file that has one. *)
Lemma lazy_advance_prefix (files : list string) :
  match lazy_advance run_loader files with
  | (Some doc, st, lg) =>
      ∃ k f docs,
        files !! k = Some f ∧ st = Suspended (drop (S k) files) docs ∧
        lg = take (S k) files ≫= log_of ∧
        take k files ≫= docs_of = [] ∧ docs_of f = doc :: docs
  | (None, st, lg) =>
      st = Finished ∧ lg = files ≫= log_of ∧ files ≫= docs_of = []
  end.
Proof.
  induction files as [|f files IH]; [done|].
  cbn [lazy_advance].
  destruct (_load_single_file run_loader f) as [[|doc docs] lg] eqn:Hf.
  - destruct (lazy_advance run_loader files) as [[[doc|] st] lg'].
    + destruct IH as (k & f' & docs & Hk & -> & -> & Hnil & Hdocs).
      exists (S k), f', docs. split_and!; [done|done| | |done].
      * change (take (S (S k)) (f :: files)) with (f :: take (S k) files).
        by rewrite bind_cons, Hf.
      * change (take (S k) (f :: files)) with (f :: take k files).
        by rewrite bind_cons, Hf, Hnil.
    + destruct IH as (-> & -> & Hnil). split_and!; [done| |].
      * by rewrite bind_cons, Hf.
      * by rewrite bind_cons, Hf, Hnil.
  - exists 0%nat, f, docs. split_and!; [done|done| |done|by rewrite Hf].
    change (take 1 (f :: files)) with [f]. by rewrite bind_singleton, Hf.
Qed.

Lemma lazy_take_loads_prefix self (n : nat) (files : list string) docs :
  ∃ k, (k ≤ length files)%nat ∧
    (lazy_take run_loader rglob self n (Suspended files docs)).2 =
      take k files ≫= log_of ∧
    ∀ j, (j < k)%nat → (length (docs ++ take j files ≫= docs_of) < n)%nat.
Proof.
  revert files docs. induction n as [|n IH]; intros files docs.
  { exists 0%nat. split_and!; [lia|done|lia]. }
  cbn [lazy_take lazy_next]. destruct docs as [|doc docs].
  - pose proof (lazy_advance_prefix files) as Hadv.
    destruct (lazy_advance run_loader files) as [[[doc|] st] lg].
    + destruct Hadv as (k & f & docs & Hk & -> & -> & Hnil & Hdocs).
      destruct (IH (drop (S k) files) docs) as (k2 & Hk2 & Hlog & Hneed).
      destruct (lazy_take run_loader rglob self n (Suspended (drop (S k) files) docs))
        as [ds lg'].
      cbn [snd] in *. subst lg'.
      pose proof (lookup_lt_Some _ _ _ Hk) as Hlt.
      rewrite length_drop in Hk2.
      exists (S k + k2)%nat. split_and!; [lia| |].
      * by rewrite <-take_take_drop, bind_app.
      * intros j Hj. rewrite app_nil_l.
        destruct (decide (j ≤ k)%nat) as [Hle|Hgt].
        { assert (take j files ≫= docs_of = []) as ->; [|simpl; lia].
          replace j with (j `min` k)%nat by lia.
          rewrite <-take_take. by apply bind_prefix_nil. }
        replace j with (S k + (j - S k))%nat by lia.
        rewrite <-take_take_drop, bind_app, (take_S_r _ _ _ Hk), bind_app,
          bind_singleton, Hnil, Hdocs.
        specialize (Hneed (j - S k)%nat ltac:(lia)).
        simpl. rewrite length_app in Hneed |- *. lia.
    + destruct Hadv as (-> & -> & Hnil).
      exists (length files). split_and!; [lia|by rewrite firstn_all|].
      intros j _. rewrite app_nil_l, bind_prefix_nil by done. simpl. lia.
  - destruct (IH files docs) as (k & Hk & Hlog & Hneed).
    destruct (lazy_take run_loader rglob self n (Suspended files docs)) as [ds lg'].
    cbn [snd] in *. exists k. split_and!; [done|done|].
    intros j Hj. specialize (Hneed j Hj). simpl. lia.
Qed.

(** X9: the generator does no work it is not asked for.  Before the first
    [next] it has not even scanned the directory.  Pulling [n] records
    scans the directory once and loads a prefix of the collected files, in
    order, and it loads a file only if the files before it hold fewer than
    [n] records. *)
Theorem load_lazy_loads_on_demand self (n : nat) :
  let files := (_collect_files rglob self).1 in
  load_lazy run_loader rglob self 0 = ([], []) ∧
  ∃ k, (k ≤ length files)%nat ∧
    (load_lazy run_loader rglob self (S n)).2 =
      LogFound (length files) :: take k files ≫= log_of ∧
    ∀ j, (j < k)%nat → (length (take j files ≫= docs_of) < S n)%nat.
Proof.
  intros files. split; [done|].
  destruct (lazy_take_loads_prefix self (S n) files []) as (k & Hk & Hlog & Hneed).
  exists k. split_and!; [done| |exact Hneed].
  unfold load_lazy. cbn [lazy_take lazy_next] in Hlog |- *.
  change (_collect_files rglob self) with (files, [LogFound (length files)]).
  cbv beta iota.
  destruct (lazy_advance run_loader files) as [[[doc|] st] lg]; [|by rewrite <-Hlog].
  destruct (lazy_take run_loader rglob self n st) as [ds lg'].
  cbn [snd] in *. by rewrite <-Hlog.
Qed.

End LazinessFacts.

(** ** Search: what a call does to the world *)

Section SearchEffects.
Context {Store : Type} `{!VectorStoreApi Store}.
Context {Llm : Type} `{!ChatApi Llm}.

(** X10: a search never touches the persisted files; it sends one query
    to the store; it calls the chat client at most once, and only after
    the store returned at least one result with a non-empty metadata
    mapping; and when the store's query raises, the search raises the same
    exception without calling the chat client. *)
Theorem search_effects (self : RAGSearch Store Llm) text top_k w :
  let out := search_and_summarize self text top_k w in
  files out.2 = files w ∧
  (trace out.2 = trace w ++ [EvQuery text top_k] ∨
   ∃ results,
     query (vectorstore self) text top_k = Ok results ∧
     result_texts results ≠ [] ∧
     trace out.2 =
       trace w ++ [EvQuery text top_k;
                   EvInvoke [make_prompt text
                               (join (nl +:+ nl) (result_texts results))]]) ∧
  (∀ e, query (vectorstore self) text top_k = Raise e →
     out = (Raise e, {| files := files w;
                        trace := trace w ++ [EvQuery text top_k] |})).
Proof.
  intros out. subst out.
  destruct (query (vectorstore self) text top_k) as [results|e] eqn:Hq.
  - destruct (decide (join (nl +:+ nl) (result_texts results) = "")) as [He|Hne].
    + rewrite (search_empty_context _ _ _ _ _ Hq He). cbn [fst snd files trace].
      split_and!; [done|by left|done].
    + rewrite (search_some_context _ _ _ _ _ Hq Hne). cbn [fst snd files trace].
      split_and!; [done| |done]. right. exists results.
      split_and!; [done| |by rewrite <-(assoc_L (++))].
      intros Hnil. by rewrite Hnil in Hne.
  - unfold search_and_summarize. run_m. rewrite Hq. cbn [fst snd files trace].
    split_and!; [done|by left|]. by intros e' [= ->].
Qed.

End SearchEffects.

(** ** Construction, again, and the two scripts *)

Section ScriptFacts.
Context {Store : Type} `{!VectorStoreApi Store}.
Context {Llm : Type} `{!ChatApi Llm}.
Variable run_loader : LoaderClass → string → Result (list Document).
Variable as_completed : list string → list string.
Variable log_order : list string → list string.
Variable rglob : string → list DirEntry.
Variable module_dir : string.
Variable normpath : string → string.
Variable getenv : string → option string.
Variable default_embedding_model : string.

Local Abbreviation init :=
  (RAGSearch_init (Store:=Store) (Llm:=Llm) run_loader as_completed log_order
     rglob module_dir normpath getenv).
Local Abbreviation loaded w :=
  {| files := files w; trace := trace w ++ [EvLoad] |}.

(** With a client for the chat service, the facade object. *)
Local Abbreviation with_client llm_model vs :=
  (match ChatGroq (getenv "API_KEY") llm_model with
   | Ok client => Ok {| vectorstore := vs; llm := client |}
   | Raise e => Raise e
   end).

Lemma init_loads dir embedding_model llm_model w :
  is_Some (files w !! path_join dir "faiss.index") →
  is_Some (files w !! path_join dir "metadata.pkl") →
  init (Some dir) embedding_model llm_model w =
    (match load (FaissVectorStore dir embedding_model) (files w) with
     | Ok vs => with_client llm_model vs
     | Raise e => Raise e
     end, loaded w).
Proof.
  intros Hi Hm. unfold RAGSearch_init. run_m.
  rewrite !bool_decide_true by done. cbn [andb negb].
  unfold call_load. run_m.
  destruct (load _ (files w)) as [vs|e]; [|done].
  by destruct (ChatGroq (getenv "API_KEY") llm_model).
Qed.

Lemma init_builds dir embedding_model llm_model w :
  ¬ (is_Some (files w !! path_join dir "faiss.index") ∧
     is_Some (files w !! path_join dir "metadata.pkl")) →
  ∃ docs events,
    init (Some dir) embedding_model llm_model w =
      (match (build_from_documents (FaissVectorStore dir embedding_model)
                docs (files w)).1 with
       | Ok vs => with_client llm_model vs
       | Raise e => Raise e
       end,
       {| files := (build_from_documents (FaissVectorStore dir embedding_model)
                      docs (files w)).2;
          trace := trace w ++ events |}).
Proof.
  intros Hnot. unfold RAGSearch_init. run_m.
  assert (bool_decide (is_Some (files w !! path_join dir "faiss.index"))
          && bool_decide (is_Some (files w !! path_join dir "metadata.pkl"))
          = false) as ->.
  { apply andb_false_iff.
    destruct (decide (is_Some (files w !! path_join dir "faiss.index")));
      [right|left]; apply bool_decide_eq_false; naive_solver. }
  cbn [negb]. unfold call_load_all_documents, call_build.
  destruct (default_pool_returns run_loader as_completed log_order rglob
              (normpath (path_join (path_join module_dir "..") "data")))
    as (docs & lg & ->).
  run_m. exists docs.
  destruct (build_from_documents _ docs (files w)) as [[vs|e] fs'];
    run_m; rewrite <-?(assoc_L (++)); eexists; [|done].
  by destruct (ChatGroq (getenv "API_KEY") llm_model).
Qed.

(** X11: construction settles.  With a store that persists what it builds,
    once a construction on a directory has returned, whether it built or
    loaded, every later construction on that directory takes the load path:
    it ingests nothing, writes nothing, and returns the same object. *)
Theorem construction_settles dir embedding_model llm_model w rag w1 :
  persists_what_it_builds Store →
  init (Some dir) embedding_model llm_model w = (Ok rag, w1) →
  init (Some dir) embedding_model llm_model w1 = (Ok rag, loaded w1).
Proof.
  intros Hlaw Hfirst.
  destruct (decide (is_Some (files w !! path_join dir "faiss.index") ∧
                    is_Some (files w !! path_join dir "metadata.pkl")))
    as [[Hi Hm]|Hnot].
  - rewrite init_loads in Hfirst by done.
    injection Hfirst as Hres <-. cbn [files].
    rewrite init_loads by done. cbn [files]. by rewrite Hres.
  - destruct (init_builds dir embedding_model llm_model w Hnot)
      as (docs & events & Hrun).
    rewrite Hrun in Hfirst. injection Hfirst as Hres <-.
    destruct (build_from_documents (FaissVectorStore dir embedding_model)
                docs (files w)) as [[vs|e] fs'] eqn:Hb; cbn [fst snd] in *;
      [|done].
    destruct (Hlaw _ _ _ _ _ _ Hb) as (Hi & Hm & Hload).
    rewrite init_loads by done. cbn [files]. by rewrite Hload, Hres.
Qed.


(** X13: [app.py] loads the store of [faiss_store] before anything else.
    When that load raises, the script ends with its exception: no
    [RAGSearch] is constructed, so nothing is ingested or built, no query
    is sent and the chat client is not called. *)
Theorem app_needs_a_store w e :
  load (FaissVectorStore "faiss_store" default_embedding_model) (files w)
    = Raise e →
  app_main (Store:=Store) (Llm:=Llm) run_loader as_completed log_order rglob
    module_dir normpath getenv default_embedding_model w
  = (Raise e, loaded w).
Proof.
  intros Hload. unfold app_main, call_load. run_m. by rewrite Hload.
Qed.

End ScriptFacts.

(** The store of the model persists what it builds. *)
Lemma faiss_persists embed dist :
  persists_what_it_builds FaissStore (VectorStoreApi0:=faiss_api embed dist).
Proof.
  intros dir model docs fs built fs'. cbn. unfold faiss_build. cbn.
  intros [= <- <-]. split_and!.
  - rewrite lookup_insert_ne by (symmetry; apply faiss_paths_differ).
    unfold faiss_path. rewrite lookup_insert_eq. by eexists.
  - unfold meta_path. rewrite lookup_insert_eq. by eexists.
  - unfold faiss_load. cbn.
    rewrite lookup_insert_ne by (symmetry; apply faiss_paths_differ).
    by rewrite !lookup_insert_eq, !length_fmap, Nat.eqb_refl.
Qed.

(** ** The further properties on the sample deployment *)

(** X2 on [/data/v1.2/report.final.PDF]. *)
Lemma last_suffix_decides_witness :
  suffix "/data/v1.2/report.final.PDF" = ".PDF" ∧
  _load_single_file Sample.run_loader "/data/v1.2/report.final.PDF" =
    ([Sample.doc "page one" "/data/v1.2/report.final.PDF";
      Sample.doc "page two" "/data/v1.2/report.final.PDF"],
     [LogLoaded 2 "report.final.PDF"]).
Proof.
  destruct (last_suffix_decides Sample.run_loader "/data/v1.2" "report.final"
              "PDF" ltac:(discriminate) ltac:(discriminate)
              eq_refl eq_refl eq_refl) as (_ & Hsuf & Hload).
  split; [exact Hsuf|exact Hload].
Defined.

(** X3 on [/data/.json]. *)
Lemma bare_extension_name_skipped_witness :
  suffix "/data/.json" = "" ∧
  _load_single_file Sample.run_loader "/data/.json" =
    ([], [LogNoLoader "" "/data/.json"]).
Proof.
  destruct (bare_extension_name_skipped Sample.run_loader Sample.rglob
              Sample.loader "/data" "json" eq_refl eq_refl)
    as (Hsuf & _ & Hload).
  split; [exact Hsuf|exact Hload].
Defined.

(** X4 on the sample directory, for the type [.txt]. *)
Lemma load_by_type_selects_witness :
  ∃ documents log,
    load_by_type Sample.run_loader Sample.as_completed Sample.log_order
      Sample.rglob Sample.loader [".txt"] = (Ok documents, log) ∧
    documents ≡ₚ [Sample.doc "alpha" "/data/a.txt"].
Proof.
  destruct (load_by_type_selects Sample.run_loader Sample.as_completed
              Sample.log_order Sample.rglob Sample.loader [".txt"] eq_refl
              (λ l, reverse_Permutation l))
    as (documents & log & _ & _ & Hrun & _ & Hdocs & _).
  exists documents, log. split; [exact Hrun|exact Hdocs].
Defined.

(** X5 on the sample directory, for the types [.PDF] and [txt]. *)
Lemma load_by_type_matches_verbatim_witness :
  load_by_type Sample.run_loader Sample.as_completed Sample.log_order
    Sample.rglob Sample.loader [".PDF"; "txt"] =
  (Ok [], [LogCall (LogFound 3); LogLoading 0 [".PDF"; "txt"]]).
Proof.
  apply (load_by_type_matches_verbatim Sample.run_loader Sample.as_completed
           Sample.log_order Sample.rglob Sample.loader [".PDF"; "txt"] eq_refl
           (λ l, reverse_Permutation l) (λ l, reflexivity l)).
  intros t Ht Hsup. apply supported_designated in Hsup as [cls Hcls].
  apply designated_lookup in Hcls.
  apply elem_of_cons in Ht as [->|Ht]; [discriminate Hcls|].
  apply list_elem_of_singleton in Ht as ->. discriminate Hcls.
Defined.

(** X6 on the sample directory. *)
Lemma load_by_type_all_types_witness :
  ∃ documents log everything log',
    load_by_type Sample.run_loader Sample.as_completed Sample.log_order
      Sample.rglob Sample.loader
      [".pdf"; ".txt"; ".csv"; ".xlsx"; ".docx"; ".json"] = (Ok documents, log) ∧
    load_all_parallel Sample.run_loader Sample.as_completed Sample.log_order
      Sample.rglob Sample.loader = (Ok everything, log') ∧
    documents ≡ₚ everything.
Proof.
  apply (load_by_type_all_types Sample.run_loader Sample.as_completed
           Sample.log_order Sample.rglob Sample.loader _ eq_refl
           (λ l, reverse_Permutation l)).
  intros ext Hsup. apply supported_designated in Hsup as [cls Hcls].
  apply (list_elem_of_fmap_2 fst) in Hcls. exact Hcls.
Defined.

(** X7 on a directory that is not there. *)
Lemma nothing_to_ingest_witness :
  load_all_parallel Sample.run_loader Sample.as_completed Sample.log_order
    Sample.rglob Sample.empty_loader = (Ok [], [LogFound 0; LogTotal 0]) ∧
  load_lazy Sample.run_loader Sample.rglob Sample.empty_loader 1 =
    ([], [LogFound 0]).
Proof.
  destruct (nothing_to_ingest Sample.run_loader Sample.as_completed
              Sample.log_order Sample.rglob Sample.empty_loader [] 0 eq_refl
              (λ l, reverse_Permutation l) (λ l, reflexivity l)
              (Forall_nil_2 _))
    as (Heager & _ & Hlazy).
  split; [exact Heager|exact Hlazy].
Defined.


(** X11 on the sample environment, from an empty persistence directory. *)
Lemma construction_settles_witness :
  ∃ rag w1,
    RAGSearch_init (VectorStoreApi0:=Sample.store_api) (ChatApi0:=Sample.chat_api)
      Sample.run_loader Sample.as_completed Sample.log_order Sample.rglob
      Sample.module_dir Sample.normpath Sample.getenv
      (Some "faiss_store") "all-MiniLM-L6-v2" "llama-3.1-8b-instant"
      Sample.empty_world = (Ok rag, w1) ∧
    RAGSearch_init (VectorStoreApi0:=Sample.store_api) (ChatApi0:=Sample.chat_api)
      Sample.run_loader Sample.as_completed Sample.log_order Sample.rglob
      Sample.module_dir Sample.normpath Sample.getenv
      (Some "faiss_store") "all-MiniLM-L6-v2" "llama-3.1-8b-instant" w1
      = (Ok rag, {| files := files w1; trace := trace w1 ++ [EvLoad] |}).
Proof.
  eexists _, _. split; [reflexivity|].
  apply (construction_settles (VectorStoreApi0:=Sample.store_api)
           (ChatApi0:=Sample.chat_api) Sample.run_loader Sample.as_completed
           Sample.log_order Sample.rglob Sample.module_dir Sample.normpath
           Sample.getenv "faiss_store" "all-MiniLM-L6-v2" "llama-3.1-8b-instant"
           Sample.empty_world _ _ (faiss_persists Sample.embed Sample.dist)).
  reflexivity.
Defined.


(** X13 on the sample environment, with no store in [faiss_store]. *)
Lemma app_needs_a_store_witness :
  app_main (VectorStoreApi0:=Sample.store_api) (ChatApi0:=Sample.chat_api)
    Sample.run_loader Sample.as_completed Sample.log_order Sample.rglob
    Sample.module_dir Sample.normpath Sample.getenv "all-MiniLM-L6-v2"
    Sample.empty_world
  = (Raise (Exception "index file missing"),
     {| files := ∅; trace := [EvLoad] |}).
Proof.
  exact (app_needs_a_store (VectorStoreApi0:=Sample.store_api)
           (ChatApi0:=Sample.chat_api) Sample.run_loader Sample.as_completed
           Sample.log_order Sample.rglob Sample.module_dir Sample.normpath
           Sample.getenv "all-MiniLM-L6-v2" Sample.empty_world
           (Exception "index file missing") eq_refl).
Defined.
